(** * Aviation weather decoding: a model of [utils/weather.py]

    The module decodes METAR fields into Chinese text.  This development
    embeds its three synchronous functions, [parse_weather], [parse_clouds]
    and [parse_metar], together with the five module-level lookup tables
    they read, and proves what they compute.

    Conventions of the embedding:
    - a Python [str] is the list of its Unicode code points, so that [len]
      is [length] and the slices [s[:n]], [s[n:]] are [take n s], [drop n s];
    - the module-level dicts live in a store ([Globals]) that every function
      is threaded through; a function may return, raise, or (in the model
      only) exhaust the fuel of a loop;
    - values decoded from JSON are dynamically typed ([pyval]). *)

From Stdlib Require Import ZArith NArith List Ascii Floats Lia DecimalString.
From stdpp Require Import gmap list strings.

Set Warnings "-register-all".
Open Scope N_scope.

(** ** Strings *)

Abbreviation str := (list N).

Fixpoint bytes_of (s : string) : list N :=
  match s with
  | EmptyString => []
  | String a t => N_of_ascii a :: bytes_of t
  end.

(** UTF-8 decoding of a byte sequence: [acc] holds the bits read so far of a
    multi-byte character and [need] the continuation bytes still expected. *)
Fixpoint utf8_decode (bs : list N) (acc : N) (need : nat) : str :=
  match bs with
  | [] => []
  | b :: tl =>
      if b <? 128 then b :: utf8_decode tl 0 0%nat
      else if b <? 192 then
        let acc' := acc * 64 + (b - 128) in
        match need with
        | 0%nat => utf8_decode tl 0 0%nat
        | 1%nat => acc' :: utf8_decode tl 0 0%nat
        | S n => utf8_decode tl acc' n
        end
      else if b <? 224 then utf8_decode tl (b - 192) 1%nat
      else if b <? 240 then utf8_decode tl (b - 224) 2%nat
      else utf8_decode tl (b - 240) 3%nat
  end.

(** [u "..."] is the Python string written by the literal (the source file is
    UTF-8, and so is this one). *)
Definition u (s : string) : str := utf8_decode (bytes_of s) 0 0%nat.

Definition newline : str := [10].

(** Truth value of a string: [bool(s)]. *)
Definition nonempty {A} (l : list A) : bool :=
  match l with [] => false | _ :: _ => true end.

(** [sep.join(parts)] *)
Fixpoint join (sep : str) (parts : list str) : str :=
  match parts with
  | [] => []
  | [p] => p
  | p :: ps => p ++ sep ++ join sep ps
  end.

(** [needle in hay] on strings *)
Fixpoint contains (needle hay : str) : bool :=
  bool_decide (take (length needle) hay = needle)
  || match hay with
     | [] => false
     | _ :: tl => contains needle tl
     end.

(** ** The module-level tables *)

Record Globals := {
  MODIFIERS : gmap str str;
  WEATHER_PHENOMENA : gmap str str;
  CLOUD_COVER : gmap str str;
  CLOUD_TYPES : gmap str str;
  FLT_CAT : gmap str (str * str)
}.

Definition module_globals : Globals := {|
  MODIFIERS := list_to_map
    [ (u "-", u "轻微"); (u "", u ""); (u "+", u "强"); (u "VC", u "附近");
      (u "MI", u "浅"); (u "BC", u "散片"); (u "PR", u "部分");
      (u "DR", u "低吹"); (u "BL", u "高吹"); (u "SH", u "阵性");
      (u "TS", u "雷暴"); (u "FZ", u "冻") ];
  WEATHER_PHENOMENA := list_to_map
    [ (u "DZ", u "毛毛雨"); (u "RA", u "雨"); (u "SN", u "雪");
      (u "SG", u "米雪"); (u "IC", u "冰针"); (u "PE", u "冰粒");
      (u "GR", u "冰雹"); (u "GS", u "小冰粒");
      (u "BR", u "轻雾"); (u "FG", u "雾"); (u "FU", u "烟");
      (u "VA", u "火山灰"); (u "DU", u "浮尘"); (u "SA", u "沙");
      (u "HZ", u "霾");
      (u "PO", u "尘卷风"); (u "FC", u "漏斗云"); (u "DS", u "尘暴");
      (u "SQ", u "飑"); (u "SS", u "沙暴") ];
  CLOUD_COVER := list_to_map
    [ (u "FEW", u "少云(1-2/8)"); (u "SCT", u "疏云(3-4/8)");
      (u "BKN", u "多云(5-7/8)"); (u "OVC", u "阴天(8/8)");
      (u "SKC", u "晴空"); (u "NSC", u "无重要云");
      (u "CLR", u "无云"); (u "NCD", u "无云") ];
  CLOUD_TYPES := list_to_map
    [ (u "TCU", u "塔状积云"); (u "CB", u "积雨云") ];
  FLT_CAT := list_to_map
    [ (u "VFR", (u "VFR 目视", u "🟢"));
      (u "MVFR", (u "MVFR 边缘", u "🔵"));
      (u "IFR", (u "IFR 仪表", u "🔴"));
      (u "LIFR", (u "LIFR 低仪表", u "🟣")) ]
|}.

(** ** Values decoded from JSON *)

Inductive pyval :=
| VNone
| VBool (b : bool)
| VInt (z : Z)
| VFloat (f : float)
| VStr (s : str)
| VList (l : list pyval)
| VDict (items : list (str * pyval)).

(** ** Effects: the store of globals, exceptions, fuel *)

(** The exceptions the three functions can meet, one constructor per fault,
    and the classes that [except] clauses select on.  An exception keeps the
    operand it was raised for: its text names the operand or its type. *)
Inductive exn_class := AttributeError | TypeError | ValueError | OverflowError.

Inductive exn :=
| AttributeError_get (x : pyval)        (* [x.get] on a value that is not a dict *)
| AttributeError_replace (x : pyval)    (* [x.replace] on a value that is not a str *)
| TypeError_unhashable (x : pyval)      (* a list or dict used as a dict key *)
| TypeError_expected_string (x : pyval) (* [re.match] / [re.search] on a non-string *)
| TypeError_not_iterable (x : pyval)    (* [for c in x] on a number or boolean *)
| TypeError_format (x : pyval)          (* a format spec passed to None, list, dict *)
| TypeError_int (x : pyval)             (* [int(x)] on None, a list or a dict *)
| ValueError_format                     (* format code 'f' applied to a str *)
| ValueError_int (x : pyval)            (* [int(x)] on a str it refuses or on nan *)
| ValueError_isoformat (s : str)        (* [datetime.fromisoformat] on a malformed str *)
| OverflowError_int_to_float            (* an int beyond the range of a float *)
| OverflowError_float_to_int.           (* [int(inf)] *)

Definition class_of (e : exn) : exn_class :=
  match e with
  | AttributeError_get _ | AttributeError_replace _ => AttributeError
  | TypeError_unhashable _ | TypeError_expected_string _
  | TypeError_not_iterable _ | TypeError_format _ | TypeError_int _ => TypeError
  | ValueError_format | ValueError_int _ | ValueError_isoformat _ => ValueError
  | OverflowError_int_to_float | OverflowError_float_to_int => OverflowError
  end.

Inductive outcome (A : Type) :=
| Return (a : A)
| Raise (e : exn)
| OutOfFuel.
Arguments Return {A} a.
Arguments Raise {A} e.
Arguments OutOfFuel {A}.

Definition M (A : Type) : Type := Globals -> outcome A * Globals.

Definition ret {A} (a : A) : M A := fun g => (Return a, g).

Definition bind {A B} (m : M A) (k : A -> M B) : M B :=
  fun g =>
    match m g with
    | (Return a, g') => k a g'
    | (Raise e, g') => (Raise e, g')
    | (OutOfFuel, g') => (OutOfFuel, g')
    end.

Definition raise {A} (e : exn) : M A := fun g => (Raise e, g).

Definition out_of_fuel {A} : M A := fun g => (OutOfFuel, g).

(** Reading a module-level name. *)
Definition global {A} (name : Globals -> A) : M A := fun g => (Return (name g), g).

(** [try: m  except Exception as e: h e] *)
Definition try_except {A} (m : M A) (h : exn -> M A) : M A :=
  fun g =>
    match m g with
    | (Raise e, g') => h e g'
    | r => r
    end.

Notation "x <- m ;; k" := (bind m (fun x => k))
  (at level 100, m at next level, right associativity).

(** [table.get(key)] as an option: [key in table] followed by [table[key]]. *)
Definition lookup_in {V} (table : Globals -> gmap str V) (key : str) : M (option V) :=
  t <- global table ;; ret (t !! key).

(** [key in table], from the result of [lookup_in]. *)
Definition found {V} (o : option V) : bool :=
  match o with Some _ => true | None => false end.

(** ** [parse_weather] *)

(** The pattern is an optional group of the alternatives VC, MI, BC, PR, DR,
    BL, SH, TS, FZ, a plus sign and a minus sign, followed by a second group
    that takes any run of characters up to the end of the line.  These are the
    alternatives of the first group in the order they are tried. *)
Definition modifier_alternatives : list str :=
  [u "VC"; u "MI"; u "BC"; u "PR"; u "DR"; u "BL"; u "SH"; u "TS"; u "FZ";
   u "+"; u "-"].

Definition no_newline (s : str) : bool := forallb (fun c => negb (c =? 10)) s.

(** The second group and the end anchor, from the current position: the dot
    matches anything but a newline and the anchor matches at the end or just
    before a newline that ends the string; the result is what group 2
    captures. *)
Definition dot_star_eol (s : str) : option str :=
  if no_newline s then Some s
  else if no_newline (removelast s) then Some (removelast s)
  else None.

Definition starts_with (p s : str) : bool := bool_decide (take (length p) s = p).

(** [re.match] of the pattern: groups 1 and 2.  An alternative whose tail
    cannot be matched is backtracked over; the last resort skips the group. *)
Fixpoint re_match_modifiers (alts : list str) (wx_string : str)
  : option (option str * str) :=
  match alts with
  | [] =>
      match dot_star_eol wx_string with
      | Some rest => Some (None, rest)
      | None => None
      end
  | p :: alts' =>
      if starts_with p wx_string then
        match dot_star_eol (drop (length p) wx_string) with
        | Some rest => Some (Some p, rest)
        | None => re_match_modifiers alts' wx_string
        end
      else re_match_modifiers alts' wx_string
  end.

(** The [for desc_len in [2, 3]] loop: it looks for a descriptor followed by
    a phenomenon and leaves the loop when it sees one.  It assigns nothing
    that is read afterwards. *)
Fixpoint descriptor_scan (lens : list nat) (remaining : str) : M bool :=
  match lens with
  | [] => ret false
  | desc_len :: lens' =>
      if (desc_len + 2 <=? length remaining)%nat then
        let desc := take desc_len remaining in
        let phen := take 2 (drop desc_len remaining) in
        d <- lookup_in MODIFIERS desc ;;
        p <- (if found d then lookup_in WEATHER_PHENOMENA phen else ret None) ;;
        if found d && found p then ret true
        else descriptor_scan lens' remaining
      else descriptor_scan lens' remaining
  end.

(** What one pass through the body of [while remaining:] leaves. *)
Inductive loop_next :=
| Continue (remaining : str) (phenomena_cn : list str)
| Break (phenomena_cn : list str).

(** One iteration of the tokenizing loop; [remaining] is non-empty. *)
Definition loop_body (remaining : str) (phenomena_cn : list str) : M loop_next :=
  (* matched = False; then the 3-character attempt *)
  s3 <-
    (if (3 <=? length remaining)%nat then
       r <- lookup_in WEATHER_PHENOMENA (take 3 remaining) ;;
       match r with
       | Some cn => ret (drop 3 remaining, phenomena_cn ++ [cn], true)
       | None => ret (remaining, phenomena_cn, false)
       end
     else ret (remaining, phenomena_cn, false)) ;;
  let '(remaining, phenomena_cn, matched) := s3 in
  (* the 2-character attempt *)
  s2 <-
    (if negb matched && (2 <=? length remaining)%nat then
       r <- lookup_in WEATHER_PHENOMENA (take 2 remaining) ;;
       match r with
       | Some cn => ret (drop 2 remaining, phenomena_cn ++ [cn], true)
       | None => ret (remaining, phenomena_cn, matched)
       end
     else ret (remaining, phenomena_cn, matched)) ;;
  let '(remaining, phenomena_cn, matched) := s2 in
  if negb matched then
    _ <- descriptor_scan [2%nat; 3%nat] remaining ;;
    if negb matched && nonempty remaining then
      ret (Break (phenomena_cn ++ [remaining]))
    else ret (Continue remaining phenomena_cn)
  else ret (Continue remaining phenomena_cn).

(** [while remaining: ...]; each iteration costs one unit of [fuel]. *)
Fixpoint while_remaining (fuel : nat) (remaining : str) (phenomena_cn : list str)
  : M (list str) :=
  match remaining with
  | [] => ret phenomena_cn
  | _ :: _ =>
      match fuel with
      | O => out_of_fuel
      | S fuel' =>
          next <- loop_body remaining phenomena_cn ;;
          match next with
          | Continue remaining' phenomena_cn' =>
              while_remaining fuel' remaining' phenomena_cn'
          | Break phenomena_cn' => ret phenomena_cn'
          end
      end
  end.

Definition parse_weather (wx_string : str) : M str :=
  if negb (nonempty wx_string) then ret (u "")
  else
    whole <- lookup_in WEATHER_PHENOMENA wx_string ;;
    match whole with
    | Some cn => ret cn
    | None =>
        match re_match_modifiers modifier_alternatives wx_string with
        | None => ret wx_string
        | Some (group1, rest) =>
            let prefix := default (u "") group1 in
            m <- lookup_in MODIFIERS prefix ;;
            let prefix_cn := default (u "") m in
            phenomena_cn <- while_remaining (length rest) rest [] ;;
            if nonempty prefix_cn && nonempty phenomena_cn then
              ret (prefix_cn ++ concat phenomena_cn)
            else if nonempty phenomena_cn then ret (concat phenomena_cn)
            else ret wx_string
        end
    end.


(** ** Python operations on the JSON values *)

(** [bool(v)]: the truth value tested by [if v]. *)
Definition truthy (v : pyval) : bool :=
  match v with
  | VNone => false
  | VBool b => b
  | VInt z => negb (z =? 0)%Z
  | VFloat f => negb (f =? 0)%float
  | VStr s => nonempty s
  | VList l => nonempty l
  | VDict items => nonempty items
  end.

(** [v == "literal"]: only a str equals a str. *)
Definition eq_str (v : pyval) (s : str) : bool :=
  match v with
  | VStr s' => bool_decide (s' = s)
  | _ => false
  end.

Fixpoint assoc (key : str) (items : list (str * pyval)) : option pyval :=
  match items with
  | [] => None
  | (k, v) :: tl => if bool_decide (k = key) then Some v else assoc key tl
  end.

(** [d.get(key, dflt)] *)
Definition py_get (d : pyval) (key : str) (dflt : pyval) : M pyval :=
  match d with
  | VDict items => ret (default dflt (assoc key items))
  | _ => raise (AttributeError_get d)
  end.

(** [key in table] and [table[key]] for a key of any type: a str is looked
    up, a list or dict cannot be hashed, anything else equals no str key. *)
Definition table_lookup {V} (table : Globals -> gmap str V) (key : pyval)
  : M (option V) :=
  match key with
  | VStr s => lookup_in table s
  | VList _ | VDict _ => raise (TypeError_unhashable key)
  | _ => ret None
  end.

(** ** The Python runtime

    What the functions borrow from the interpreter and its library and this
    development does not reproduce is a parameter. *)
Record Runtime := {
  (** [str(v)] of a float, a list or a dict *)
  repr : pyval -> str;
  (** [datetime.fromisoformat(s).strftime("%Y-%m-%d %H:%M UTC")], [None]
      when [fromisoformat] raises *)
  fromisoformat_strftime : str -> option str;
  (** the value of a decimal digit beyond ASCII (Unicode category Nd) *)
  unicode_decimal : N -> option Z;
  (** [sys.get_int_max_str_digits()]: the most digits [int] accepts in a
      str, 0 when the interpreter sets no limit *)
  int_max_str_digits : nat;
  (** [str(e)] of the exceptions whose wording changed between versions of
      the interpreter *)
  message : exn -> str
}.

(** [type(v).__name__] *)
Definition type_name (v : pyval) : str :=
  match v with
  | VNone => u "NoneType"
  | VBool _ => u "bool"
  | VInt _ => u "int"
  | VFloat _ => u "float"
  | VStr _ => u "str"
  | VList _ => u "list"
  | VDict _ => u "dict"
  end.

(** [str(e)]: the text of an exception, which names the type of the operand
    where the interpreter does. *)
Definition exn_str (L : Runtime) (e : exn) : str :=
  match e with
  | AttributeError_get x =>
      u "'" ++ type_name x ++ u "' object has no attribute 'get'"
  | AttributeError_replace x =>
      u "'" ++ type_name x ++ u "' object has no attribute 'replace'"
  | TypeError_not_iterable x =>
      u "'" ++ type_name x ++ u "' object is not iterable"
  | TypeError_format x =>
      u "unsupported format string passed to " ++ type_name x ++ u ".__format__"
  | ValueError_format => u "Unknown format code 'f' for object of type 'str'"
  | OverflowError_int_to_float => u "int too large to convert to float"
  | OverflowError_float_to_int => u "cannot convert float infinity to integer"
  | TypeError_unhashable _ | TypeError_expected_string _ | TypeError_int _
  | ValueError_int _ | ValueError_isoformat _ => message L e
  end.

(** Decimal notation of an integer: [str(z)].  (An interpreter that limits
    the digits of a conversion refuses to print a longer integer, but it
    refuses to read one as well, from JSON text or with [int]: none reaches
    [str].) *)
Definition decimal (z : Z) : str :=
  bytes_of (NilZero.string_of_int (Z.to_int z)).

(** [str(v)], which is also [format(v, "")]: what an f-string field without a
    format spec inserts. *)
Definition py_str (L : Runtime) (v : pyval) : str :=
  match v with
  | VStr s => s
  | VInt z => decimal z
  | VBool true => u "True"
  | VBool false => u "False"
  | VNone => u "None"
  | VFloat _ | VList _ | VDict _ => repr L v
  end.

(** *** Integers from strings *)

(** The whitespace [int] strips from a str: tab to carriage return, the
    space, and the Unicode spaces beyond ASCII.  (The separators U+001C to
    U+001F are whitespace for [str.isspace] but not for [int].) *)
Definition is_space (c : N) : bool :=
  ((9 <=? c) && (c <=? 13)) || (c =? 32)
  || (c =? 133) || (c =? 160) || (c =? 5760)
  || ((8192 <=? c) && (c <=? 8202))
  || (c =? 8232) || (c =? 8233) || (c =? 8239) || (c =? 8287) || (c =? 12288).

Definition digit_value (L : Runtime) (c : N) : option Z :=
  if (48 <=? c) && (c <=? 57) then Some (Z.of_N (c - 48))
  else if c <? 128 then None
  else unicode_decimal L c.

Definition is_digit (L : Runtime) (c : N) : bool := found (digit_value L c).

Fixpoint lstrip (s : str) : str :=
  match s with
  | c :: tl => if is_space c then lstrip tl else s
  | [] => []
  end.

Definition strip (s : str) : str := rev (lstrip (rev (lstrip s))).

(** Digits, with single underscores allowed between two digits. *)
Fixpoint int_digits (L : Runtime) (s : str) (acc : Z) (after_digit : bool)
  : option Z :=
  match s with
  | [] => if after_digit then Some acc else None
  | c :: tl =>
      if c =? 95 then
        if after_digit then int_digits L tl acc false else None
      else
        match digit_value L c with
        | Some d => int_digits L tl (acc * 10 + d)%Z true
        | None => None
        end
  end.

(** The digits of a literal, underscores apart, leading zeros included. *)
Definition digit_count (s : str) : nat :=
  length (filter (fun c => negb (c =? 95)) s).

(** The limit on the digits of a str that [int] converts: the interpreter
    looks at its setting only past 640 digits, and 0 sets no limit. *)
Definition too_many_digits (L : Runtime) (s : str) : bool :=
  (640 <? digit_count s)%nat
  && (0 <? int_max_str_digits L)%nat
  && (int_max_str_digits L <? digit_count s)%nat.

(** [int(s)] for a str: surrounding whitespace, an optional sign, digits;
    [None] stands for the ValueError of a malformed literal or of one with
    more digits than the interpreter converts. *)
Definition int_of_str (L : Runtime) (s : str) : option Z :=
  match strip s with
  | [] => None
  | c :: tl =>
      let digits := if (c =? 43) || (c =? 45) then tl else c :: tl in
      if too_many_digits L digits then None
      else if c =? 43 then int_digits L tl 0%Z false
      else if c =? 45 then Z.opp <$> int_digits L tl 0%Z false
      else int_digits L (c :: tl) 0%Z false
  end.

(** *** Floats *)

(** [float(z)]: the nearest double, ties to even; infinity past the range. *)
Definition Z2float (z : Z) : float :=
  SF2Prim (binary_normalize prec emax z 0 false).

Definition float_of_int (z : Z) : M float :=
  match Prim2SF (Z2float z) with
  | S754_infinity _ => raise OverflowError_int_to_float
  | _ => ret (Z2float z)
  end.

(** [int(v)] *)
Definition py_int (L : Runtime) (v : pyval) : M Z :=
  match v with
  | VInt z => ret z
  | VBool b => ret (if b then 1 else 0)%Z
  | VFloat f =>
      match Prim2SF f with
      | S754_zero _ => ret 0%Z
      | S754_finite s m e =>
          let mag := (if 0 <=? e then Z.pos m * 2 ^ e else Z.pos m / 2 ^ (- e))%Z in
          ret (if s then - mag else mag)%Z
      | S754_infinity _ => raise OverflowError_float_to_int
      | S754_nan => raise (ValueError_int v)
      end
  | VStr s =>
      match int_of_str L s with
      | Some z => ret z
      | None => raise (ValueError_int v)
      end
  | VNone | VList _ | VDict _ => raise (TypeError_int v)
  end.

(** *** Fixed-point formatting: the format specs [.0f] and [.2f] *)

(** [num / den] rounded to the nearest integer, ties to even
    ([0 <= num], [0 < den]). *)
Definition round_half_even (num den : Z) : Z :=
  let q := (num / den)%Z in
  let r := (num mod den)%Z in
  if (2 * r <? den)%Z then q
  else if (den <? 2 * r)%Z then (q + 1)%Z
  else if Z.even q then q else (q + 1)%Z.

(** The digits of [n / 10^prec] with [prec] decimals, for [0 <= n]. *)
Definition fixed_digits (prec : nat) (n : Z) : str :=
  let digits := decimal n in
  let padded := replicate (S prec - length digits) 48 ++ digits in
  let cut := (length padded - prec)%nat in
  match prec with
  | O => padded
  | S _ => take cut padded ++ u "." ++ drop cut padded
  end.

Definition sign_str (negative : bool) : str := if negative then u "-" else u "".

(** [format(f, ".<prec>f")]: the exact value of the double, rounded to
    [prec] decimals, ties to even. *)
Definition format_fixed (prec : nat) (f : float) : str :=
  match Prim2SF f with
  | S754_nan => u "nan"
  | S754_infinity s => sign_str s ++ u "inf"
  | S754_zero s => sign_str s ++ fixed_digits prec 0
  | S754_finite s m e =>
      let num := (Z.pos m * 10 ^ Z.of_nat prec * 2 ^ Z.max e 0)%Z in
      let den := (2 ^ Z.max (- e) 0)%Z in
      sign_str s ++ fixed_digits prec (round_half_even num den)
  end.

(** [format(v, ".2f")] for a value of any type. *)
Definition format_2f (v : pyval) : M str :=
  match v with
  | VFloat f => ret (format_fixed 2 f)
  | VInt z => f <- float_of_int z ;; ret (format_fixed 2 f)
  | VBool b => ret (format_fixed 2 (Z2float (if b then 1 else 0)))
  | VStr _ => raise ValueError_format
  | VNone | VList _ | VDict _ => raise (TypeError_format v)
  end.

(** ** [parse_clouds] *)

Fixpoint mapM {A B} (f : A -> M B) (l : list A) : M (list B) :=
  match l with
  | [] => ret []
  | x :: tl => y <- f x ;; ys <- mapM f tl ;; ret (y :: ys)
  end.

(** The values [for c in v] runs over. *)
Definition py_iter (v : pyval) : M (list pyval) :=
  match v with
  | VList l => ret l
  | VStr s => ret (map (fun c => VStr [c]) s)
  | VDict items => ret (map (fun kv => VStr (fst kv)) items)
  | VNone | VBool _ | VInt _ | VFloat _ => raise (TypeError_not_iterable v)
  end.

(** The literal 0.3048, as the double Python reads it. *)
Definition feet_factor : float := 0x1.381d7dbf487fdp-2%float.

(** The body of [for c in clouds]: the text of one layer. *)
Definition cloud_layer (L : Runtime) (c : pyval) : M str :=
  cover <- py_get c (u "cover") (VStr (u "")) ;;
  base <- py_get c (u "base") (VStr (u "")) ;;
  cloud_type <- py_get c (u "cloudType") (VStr (u "")) ;;
  (* cover_cn = CLOUD_COVER.get(cover, cover) *)
  cover_tr <- table_lookup CLOUD_COVER cover ;;
  let cover_cn := default cover (VStr <$> cover_tr) in
  height_str <-
    (if truthy base && negb (eq_str base (u "N/A")) then
       try_except
         (base_int <- py_int L base ;;
          base_float <- float_of_int base_int ;;
          ret (u " 云底 " ++ decimal base_int ++ u "ft ("
               ++ format_fixed 0 (base_float * feet_factor)%float ++ u "m)"))
         (fun e =>
            match class_of e with
            | ValueError | TypeError => ret (u " 云底 " ++ py_str L base)
            | _ => raise e
            end)
     else ret (u "")) ;;
  by_type <- table_lookup CLOUD_TYPES cloud_type ;;
  type_str <-
    match by_type with
    | Some cn => ret (u " " ++ cn)
    | None =>
        by_cover <- table_lookup CLOUD_TYPES cover ;;
        match by_cover with
        | Some cn => ret (u " " ++ cn)
        | None => ret (u "")
        end
    end ;;
  ret (py_str L cover_cn ++ height_str ++ type_str).

Definition parse_clouds (L : Runtime) (clouds : pyval) : M str :=
  if negb (truthy clouds) then ret (u "无云")
  else
    layers <- py_iter clouds ;;
    cloud_info <- mapM (cloud_layer L) layers ;;
    ret (join (u " / ") cloud_info).

(** ** [parse_metar] *)

(** [reportTime.replace("Z", "+00:00")] *)
Definition replace_Z (v : pyval) : M str :=
  match v with
  | VStr s => ret (flat_map (fun c => if c =? 90 then u "+00:00" else [c]) s)
  | _ => raise (AttributeError_replace v)
  end.

(** The observation time: reformatted when it parses, left as it is when
    anything in the attempt raises (the bare [except: pass]). *)
Definition report_time (L : Runtime) (reportTime : pyval) : M pyval :=
  if negb (eq_str reportTime (u "N/A")) then
    try_except
      (iso <- replace_Z reportTime ;;
       match fromisoformat_strftime L iso with
       | Some shown => ret (VStr shown)
       | None => raise (ValueError_isoformat iso)
       end)
      (fun _ => ret reportTime)
  else ret reportTime.

(** The wind text, from [wdir], [wspd] and [wgst]. *)
Definition wind_text (L : Runtime) (windDir windSpeed gust : pyval) : str :=
  if eq_str windDir (u "VRB") then u "风向不定"
  else if eq_str windDir (u "N/A") || eq_str windSpeed (u "N/A") then u "无风"
  else
    let gust_str :=
      if truthy gust then u " 阵风 " ++ py_str L gust ++ u "kt" else u "" in
    py_str L windDir ++ u "°/" ++ py_str L windSpeed ++ u "kt" ++ gust_str.

(** The search for the letter A followed by four digits: the leftmost
    occurrence, of which the four digits are returned. *)
Fixpoint search_altim (L : Runtime) (raw : str) : option str :=
  match raw with
  | [] => None
  | c :: tl =>
      if (c =? 65) && (4 <=? length tl)%nat && forallb (is_digit L) (take 4 tl)
      then Some (take 4 tl)
      else search_altim L tl
  end.

Definition re_search_altim (L : Runtime) (raw_ob : pyval) : M (option str) :=
  match raw_ob with
  | VStr raw => ret (search_altim L raw)
  | _ => raise (TypeError_expected_string raw_ob)
  end.

(** The pressure text, from [altim] and the raw report. *)
Definition altim_text (L : Runtime) (altim raw_ob : pyval) : M str :=
  if negb (eq_str altim (u "N/A")) then
    us_altim_match <- re_search_altim L raw_ob ;;
    match us_altim_match with
    | Some us_altim =>
        n <- py_int L (VStr us_altim) ;;
        (* int(us_altim) / 100: both operands are exact doubles *)
        let us_altim_inhg := format_fixed 2 (Z2float n / Z2float 100)%float in
        shown <- format_2f altim ;;
        ret (shown ++ u " inHg A" ++ us_altim_inhg)
    | None =>
        shown <- format_2f altim ;;
        ret (shown ++ u " inHg")
    end
  else ret (u "N/A").

(** [parse_weather(wx_raw) if wx_raw else ""] for a value of any type: a
    truthy value that is no str fails in the dict test or in [re.match]. *)
Definition weather_text (wx_raw : pyval) : M str :=
  if truthy wx_raw then
    match wx_raw with
    | VStr s => parse_weather s
    | VList _ | VDict _ => raise (TypeError_unhashable wx_raw)
    | _ => raise (TypeError_expected_string wx_raw)
    end
  else ret (u "").

(** The lines of the report, in order: the body of the [try]. *)
Definition metar_lines (L : Runtime) (metar_data : pyval) : M (list str) :=
  raw_ob <- py_get metar_data (u "rawOb") (VStr (u "")) ;;
  icao <- py_get metar_data (u "icaoId") (VStr (u "N/A")) ;;
  name <- py_get metar_data (u "name") (VStr (u "N/A")) ;;
  reportTime <- py_get metar_data (u "reportTime") (VStr (u "N/A")) ;;
  reportTime <- report_time L reportTime ;;
  windDir <- py_get metar_data (u "wdir") (VStr (u "N/A")) ;;
  windSpeed <- py_get metar_data (u "wspd") (VStr (u "N/A")) ;;
  gust <- py_get metar_data (u "wgst") (VStr (u "")) ;;
  let wind := wind_text L windDir windSpeed gust in
  vis <- py_get metar_data (u "visib") (VStr (u "N/A")) ;;
  let vis :=
    if negb (eq_str vis (u "N/A")) then py_str L vis ++ u " statute miles"
    else py_str L vis in
  wx_raw <- py_get metar_data (u "wxString") (VStr (u "")) ;;
  wx <- weather_text wx_raw ;;
  clouds <- py_get metar_data (u "clouds") (VList []) ;;
  clouds_str <- parse_clouds L clouds ;;
  temp <- py_get metar_data (u "temp") (VStr (u "N/A")) ;;
  dewp <- py_get metar_data (u "dewp") (VStr (u "N/A")) ;;
  let temp_str := py_str L temp ++ u "°C" in
  let dewp_str := py_str L dewp ++ u "°C" in
  altim <- py_get metar_data (u "altim") (VStr (u "N/A")) ;;
  altim_str <- altim_text L altim raw_ob ;;
  let lines := if truthy raw_ob then [u "📄 原始报文: " ++ py_str L raw_ob] else [] in
  let lines := lines ++
    [ u "📍 " ++ py_str L name ++ u " (" ++ py_str L icao ++ u ")";
      u "⏰ 观测时间: " ++ py_str L reportTime;
      u "💨 风向风速: " ++ wind;
      u "👁️ 能见度: " ++ vis ] in
  let lines := if nonempty wx then lines ++ [u "🌤️ 天气: " ++ wx] else lines in
  let lines := lines ++ [u "☁️ 云量: " ++ clouds_str] in
  let lines :=
    if negb (eq_str temp (u "N/A")) then lines ++ [u "🌡️ 温度: " ++ temp_str]
    else lines in
  let lines :=
    if negb (eq_str dewp (u "N/A")) then lines ++ [u "💧 露点: " ++ dewp_str]
    else lines in
  let lines :=
    if negb (eq_str altim (u "N/A")) then lines ++ [u "📊 气压: " ++ altim_str]
    else lines in
  flt_cat <- py_get metar_data (u "fltCat") (VStr (u "")) ;;
  cat <- (if truthy flt_cat then table_lookup FLT_CAT flt_cat else ret None) ;;
  match cat with
  | Some (cat_name, cat_emoji) =>
      ret (lines ++ [u "✈️ 运行标准: " ++ cat_emoji ++ u " " ++ cat_name])
  | None => ret lines
  end.

Definition parse_metar (L : Runtime) (metar_data : pyval) : M str :=
  try_except
    (lines <- metar_lines L metar_data ;; ret (join newline lines))
    (fun e => ret (u "解析失败: " ++ exn_str L e)).

(** ** [_handle_response] and the fetch functions *)

Definition BASE_URL : str := u "https://aviationweather.gov/api/data".

(** What [await response.json()] does: it yields the decoded body, or it
    raises an exception, of which only the text [str(e)] is used. *)
Inductive json_outcome :=
| JsonData (data : pyval)
| JsonError (text : str).

(** What the function reads of an [aiohttp.ClientResponse]. *)
Record response := { status : Z; json : json_outcome }.

Definition error_messages : gmap Z str := list_to_map
  [ (204%Z, u "未找到该机场的天气数据");
    (400%Z, u "请求格式错误，请检查 ICAO 机场代码");
    (404%Z, u "未找到该机场");
    (429%Z, u "请求过于频繁，请稍后再试");
    (500%Z, u "服务器内部错误");
    (502%Z, u "网关错误，请稍后再试");
    (504%Z, u "网关超时，请稍后再试") ].

(** The two shapes of the dict that is returned. *)
Definition failed (error : str) : pyval :=
  VDict [(u "success", VBool false); (u "error", VStr error)].

Definition succeeded (data : pyval) : pyval :=
  VDict [(u "success", VBool true); (u "data", data)].

Definition _handle_response (r : response) : pyval :=
  if (status r =? 200)%Z then
    match json r with
    | JsonData data =>
        if negb (truthy data) then failed (u "未找到该机场的天气数据")
        else succeeded data
    | JsonError text => failed (u "数据解析失败: " ++ text)
    end
  else
    failed (default (u "请求失败，状态码: " ++ decimal (status r))
                    (error_messages !! status r)).

(** The server's answer to a GET of a URL; [None] when the connection fails
    and aiohttp raises instead of answering. *)
Definition network : Type := str -> option response.

Definition metar_url (icao_code : str) : str :=
  BASE_URL ++ u "/metar?ids=" ++ icao_code ++ u "&format=json".

Definition taf_url (icao_code : str) : str :=
  BASE_URL ++ u "/taf?ids=" ++ icao_code ++ u "&format=json".

Definition fetch_metar (net : network) (icao_code : str) : option pyval :=
  _handle_response <$> net (metar_url icao_code).

Definition fetch_taf (net : network) (icao_code : str) : option pyval :=
  _handle_response <$> net (taf_url icao_code).

(** ** The chat commands of [main.py] *)

(** [str.upper] and [str.isalpha] work character by character; beyond ASCII
    they follow the Unicode tables, which are a parameter here. *)
Record Unicode := {
  upper_beyond_ascii : N -> str;
  alpha_beyond_ascii : N -> bool
}.

Definition upper_char (T : Unicode) (c : N) : str :=
  if (97 <=? c) && (c <=? 122) then [c - 32]
  else if c <? 128 then [c]
  else upper_beyond_ascii T c.

(** [s.upper()] *)
Definition upper (T : Unicode) (s : str) : str := flat_map (upper_char T) s.

Definition alpha_char (T : Unicode) (c : N) : bool :=
  ((65 <=? c) && (c <=? 90)) || ((97 <=? c) && (c <=? 122))
  || ((128 <=? c) && alpha_beyond_ascii T c).

(** [s.isalpha()]: at least one character, and all of them letters. *)
Definition isalpha (T : Unicode) (s : str) : bool :=
  nonempty s && forallb (alpha_char T) s.

(** Exceptions that only the command handlers can meet. *)
Inductive fault :=
| ConnectionFault      (* aiohttp could not get an answer *)
| KeyError_key         (* [d[key]] on a dict without the key, or a non-dict *)
| KeyError_0           (* [d[0]] on a dict, whose keys are strings *)
| IndexError_0         (* [x[0]] on an empty list or str *)
| TypeError_subscript. (* [x[0]] on a number, a boolean or None *)

(** How the run of a handler ends: with the replies it yielded, or with an
    exception that leaves the handler. *)
Inductive handled :=
| Replied (texts : list str)
| Propagated (e : exn)
| Faulted (f : fault)
| Stalled.

(** [d[key]] for a str key; [None] stands for the exception. *)
Definition subscript_key (d : pyval) (key : str) : option pyval :=
  match d with
  | VDict items => assoc key items
  | _ => None
  end.

(** [x[0]] *)
Definition subscript_0 (x : pyval) : fault + pyval :=
  match x with
  | VList (first :: _) => inr first
  | VList [] => inl IndexError_0
  | VStr (c :: _) => inr (VStr [c])
  | VStr [] => inl IndexError_0
  | VDict _ => inl KeyError_0
  | VNone | VBool _ | VInt _ | VFloat _ => inl TypeError_subscript
  end.

Definition format_error_reply : str :=
  u "❌ ICAO 机场代码格式错误，请输入4位字母（如 ZSSS）".

(** The text after the report in the reply of [get_metar]. *)
Definition disclaimer : str :=
  u " " ++ newline ++ newline ++ u "  !!!解读仅供参考，请以原始报文为准!!!".

(** What both handlers do with the dict that the fetch returned: a failure
    is answered with its error text, and [on_data] is what the handler does
    with [result["data"]]. *)
Definition answer (L : Runtime)
    (on_data : pyval -> Globals -> handled * Globals) (result : pyval)
    : Globals -> handled * Globals :=
  fun g =>
    match subscript_key result (u "success") with
    | None => (Faulted KeyError_key, g)
    | Some ok =>
        if truthy ok then
          match subscript_key result (u "data") with
          | None => (Faulted KeyError_key, g)
          | Some data => on_data data g
          end
        else
          match subscript_key result (u "error") with
          | None => (Faulted KeyError_key, g)
          | Some error => (Replied [u "❌ " ++ py_str L error], g)
          end
    end.

(** The common course of both handlers: the code is put in upper case and
    checked, then fetched, then answered. *)
Definition command (T : Unicode) (L : Runtime)
    (fetch : str -> option pyval) (on_data : pyval -> Globals -> handled * Globals)
    (icao_code : str) : Globals -> handled * Globals :=
  fun g =>
    let icao_code := upper T icao_code in
    if negb (isalpha T icao_code) || negb (length icao_code =? 4)%nat then
      (Replied [format_error_reply], g)
    else
      match fetch icao_code with
      | None => (Faulted ConnectionFault, g)
      | Some result => answer L on_data result g
      end.

Definition get_metar (T : Unicode) (L : Runtime) (net : network)
    (icao_code : str) : Globals -> handled * Globals :=
  command T L (fetch_metar net)
    (fun data g =>
       match subscript_0 data with
       | inl f => (Faulted f, g)
       | inr first =>
           match parse_metar L first g with
           | (Return metar_text, g') => (Replied [metar_text ++ disclaimer], g')
           | (Raise e, g') => (Propagated e, g')
           | (OutOfFuel, g') => (Stalled, g')
           end
       end)
    icao_code.

Definition get_taf (T : Unicode) (L : Runtime) (net : network)
    (icao_code : str) : Globals -> handled * Globals :=
  command T L (fetch_taf net)
    (fun data g =>
       match subscript_0 data with
       | inl f => (Faulted f, g)
       | inr first =>
           match py_get first (u "rawTAF") (VStr (u "无TAF报文")) g with
           | (Return raw_taf, g') =>
               (Replied [u "📄 报文:" ++ newline ++ py_str L raw_taf
                         ++ u " " ++ newline ++ newline], g')
           | (Raise e, g') => (Propagated e, g')
           | (OutOfFuel, g') => (Stalled, g')
           end
       end)
    icao_code.

(** ** Notions used in the statements *)

(** A computation settles when, from any store, it returns or raises and
    leaves the store as it found it: it neither writes a global nor runs out
    of fuel. *)
Definition settles {A} (m : M A) : Prop :=
  forall g, (exists a, m g = (Return a, g)) \/ (exists e, m g = (Raise e, g)).

(** A runtime to run examples with: it renders floats and containers as a
    question mark, parses no timestamp, knows no digit beyond ASCII and
    converts at most 4300 digits. *)
Definition sample_runtime : Runtime := {|
  repr := fun _ => u "?";
  fromisoformat_strftime := fun _ => None;
  unicode_decimal := fun _ => None;
  int_max_str_digits := 4300;
  message := fun _ => u "?"
|}.

(** The double that the literal 29.92 denotes. *)
Definition altim_29_92 : float := 0x1.deb851eb851ecp+4%float.

(** A record with a station name and code and nothing else. *)
Definition station_only : pyval :=
  VDict [(u "icaoId", VStr (u "ZSSS")); (u "name", VStr (u "Shanghai"))].

(** A record whose gust field is present and holds zero. *)
Definition calm_gust : pyval :=
  VDict [(u "wdir", VInt 270); (u "wspd", VInt 10); (u "wgst", VInt 0)].

(** One broken layer with base "050". *)
Definition broken_050 : pyval :=
  VList [VDict [(u "cover", VStr (u "BKN")); (u "base", VStr (u "050"))]].

(** A record whose pressure is a text, which no [.2f] can format. *)
Definition pressure_as_text : pyval :=
  VDict [(u "altim", VStr (u "29.92"))].

(** A raw report with one altimeter group. *)
Definition raw_report : str :=
  u "KJFK 011851Z 27010KT 10SM FEW250 22/10 A2992 RMK AO2".

(** The letters of ASCII. *)
Definition ascii_letter (c : N) : bool :=
  ((65 <=? c) && (c <=? 90)) || ((97 <=? c) && (c <=? 122)).

(** Unicode tables to run examples with: no letter beyond ASCII. *)
Definition plain_unicode : Unicode := {|
  upper_beyond_ascii := fun c => [c];
  alpha_beyond_ascii := fun _ => false
|}.

(** A network on which every connection fails. *)
Definition offline : network := fun _ => None.

(** A network that gives the same answer to every request. *)
Definition answering (r : response) : network := fun _ => Some r.

(** The first character of each kind of report line, in the order in which
    [parse_metar] appends the lines, and those of the lines that it appends
    without a condition. *)
Definition line_marks : list N :=
  map (hd 0)
    [ u "📄 原始报文: "; u "📍 "; u "⏰ 观测时间: "; u "💨 风向风速: ";
      u "👁️ 能见度: "; u "🌤️ 天气: "; u "☁️ 云量: "; u "🌡️ 温度: ";
      u "💧 露点: "; u "📊 气压: "; u "✈️ 运行标准: " ].

Definition unconditional_marks : list N :=
  map (hd 0)
    [ u "📍 "; u "⏰ 观测时间: "; u "💨 风向风速: "; u "👁️ 能见度: ";
      u "☁️ 云量: " ].

(** [xs] can be obtained from [ys] by leaving elements out. *)
Fixpoint is_subsequence (xs ys : list N) : bool :=
  match ys with
  | [] => match xs with [] => true | _ :: _ => false end
  | y :: ys' =>
      match xs with
      | [] => true
      | x :: xs' =>
          if x =? y then is_subsequence xs' ys' else is_subsequence xs ys'
      end
  end.

(** * Properties *)

(** ** Running computations *)

Lemma bind_return {A B} (m : M A) (k : A -> M B) g a g' :
  m g = (Return a, g') -> (x <- m ;; k x) g = k a g'.
Proof. intros H. unfold bind. rewrite H. reflexivity. Qed.

Lemma lookup_in_run {V} (table : Globals -> gmap str V) key g :
  lookup_in table key g = (Return (table g !! key), g).
Proof. reflexivity. Qed.

(** ** The tokenizing loop *)

Lemma descriptor_scan_returns lens remaining g :
  exists seen, descriptor_scan lens remaining g = (Return seen, g).
Proof.
  induction lens as [|desc_len lens IH]; simpl.
  - exists false. reflexivity.
  - destruct (desc_len + 2 <=? length remaining)%nat; [|exact IH].
    unfold bind. rewrite lookup_in_run.
    destruct (MODIFIERS g !! take desc_len remaining) as [d|]; simpl.
    + destruct (WEATHER_PHENOMENA g !! take 2 (drop desc_len remaining)); simpl.
      * exists true. reflexivity.
      * exact IH.
    + exact IH.
Qed.

(** A pass through the loop body with no table match appends the whole
    remainder and leaves the loop. *)
Lemma loop_body_no_match g remaining phenomena_cn :
  remaining <> [] ->
  WEATHER_PHENOMENA g !! take 3 remaining = None ->
  WEATHER_PHENOMENA g !! take 2 remaining = None ->
  loop_body remaining phenomena_cn g
  = (Return (Break (phenomena_cn ++ [remaining])), g).
Proof.
  intros Hne H3 H2. unfold loop_body.
  assert (Hfirst :
    (if (3 <=? length remaining)%nat
     then r <- lookup_in WEATHER_PHENOMENA (take 3 remaining) ;;
          match r with
          | Some cn => ret (drop 3 remaining, phenomena_cn ++ [cn], true)
          | None => ret (remaining, phenomena_cn, false)
          end
     else ret (remaining, phenomena_cn, false)) g
    = (Return (remaining, phenomena_cn, false), g)).
  { destruct (3 <=? length remaining)%nat; [|reflexivity].
    unfold bind. rewrite lookup_in_run, H3. reflexivity. }
  rewrite (bind_return _ _ _ _ _ Hfirst). cbn [negb andb].
  assert (Hsecond :
    (if (2 <=? length remaining)%nat
     then r <- lookup_in WEATHER_PHENOMENA (take 2 remaining) ;;
          match r with
          | Some cn => ret (drop 2 remaining, phenomena_cn ++ [cn], true)
          | None => ret (remaining, phenomena_cn, false)
          end
     else ret (remaining, phenomena_cn, false)) g
    = (Return (remaining, phenomena_cn, false), g)).
  { destruct (2 <=? length remaining)%nat; [|reflexivity].
    unfold bind. rewrite lookup_in_run, H2. reflexivity. }
  rewrite (bind_return _ _ _ _ _ Hsecond). cbn [negb andb].
  destruct (descriptor_scan_returns [2%nat; 3%nat] remaining g) as [seen Hscan].
  rewrite (bind_return _ _ _ _ _ Hscan).
  destruct remaining; [congruence|reflexivity].
Qed.

(** One pass through the loop body: a table match of three or two characters
    consumes them, and otherwise the remainder becomes a token and the loop
    is left. *)
Lemma loop_body_step g remaining phenomena_cn :
  remaining <> [] ->
  (exists n cn,
      (n = 3 \/ n = 2)%nat /\ (n <= length remaining)%nat
      /\ WEATHER_PHENOMENA g !! take n remaining = Some cn
      /\ loop_body remaining phenomena_cn g
         = (Return (Continue (drop n remaining) (phenomena_cn ++ [cn])), g))
  \/ loop_body remaining phenomena_cn g
     = (Return (Break (phenomena_cn ++ [remaining])), g).
Proof.
  intros Hne.
  destruct (descriptor_scan_returns [2%nat; 3%nat] remaining g) as [seen Hscan].
  unfold loop_body, bind.
  destruct (3 <=? length remaining)%nat eqn:E3.
  - rewrite lookup_in_run.
    destruct (WEATHER_PHENOMENA g !! take 3 remaining) as [cn|] eqn:L3.
    + left. exists 3%nat, cn. apply Nat.leb_le in E3. cbn. auto.
    + cbn [ret negb andb].
      assert (E2 : (2 <=? length remaining)%nat = true).
      { apply Nat.leb_le. apply Nat.leb_le in E3. lia. }
      rewrite E2, lookup_in_run.
      destruct (WEATHER_PHENOMENA g !! take 2 remaining) as [cn|] eqn:L2.
      * left. exists 2%nat, cn. apply Nat.leb_le in E2. cbn. auto.
      * right. cbn [ret negb andb]. rewrite Hscan.
        destruct remaining; [congruence|reflexivity].
  - cbn [ret negb andb].
    destruct (2 <=? length remaining)%nat eqn:E2.
    + rewrite lookup_in_run.
      destruct (WEATHER_PHENOMENA g !! take 2 remaining) as [cn|] eqn:L2.
      * left. exists 2%nat, cn. apply Nat.leb_le in E2. cbn. auto.
      * right. cbn [ret negb andb]. rewrite Hscan.
        destruct remaining; [congruence|reflexivity].
    + right. cbn [ret negb andb]. rewrite Hscan.
      destruct remaining; [congruence|reflexivity].
Qed.

(** With at least as much fuel as characters, the loop returns. *)
Lemma while_remaining_returns g fuel :
  forall remaining phenomena_cn,
    (length remaining <= fuel)%nat ->
    exists tokens, while_remaining fuel remaining phenomena_cn g = (Return tokens, g).
Proof.
  induction fuel as [|fuel IH]; intros remaining phenomena_cn Hlen.
  - destruct remaining; [|simpl in Hlen; lia]. exists phenomena_cn. reflexivity.
  - destruct remaining as [|c tl] eqn:Hrem; [exists phenomena_cn; reflexivity|].
    rewrite <- Hrem in *. assert (Hne : remaining <> []) by (subst; discriminate).
    assert (Hunfold : while_remaining (S fuel) remaining phenomena_cn
      = (next <- loop_body remaining phenomena_cn ;;
         match next with
         | Continue remaining' phenomena_cn' =>
             while_remaining fuel remaining' phenomena_cn'
         | Break phenomena_cn' => ret phenomena_cn'
         end)) by (subst; reflexivity).
    rewrite Hunfold. clear Hunfold.
    destruct (loop_body_step g remaining phenomena_cn Hne)
      as [(n & cn & Hn & Hle & _ & Hstep) | Hstep];
      rewrite (bind_return _ _ _ _ _ Hstep).
    + apply IH. rewrite length_drop. destruct Hn; subst n; lia.
    + eexists. reflexivity.
Qed.

Lemma parse_weather_returns g wx_string :
  exists cn, parse_weather wx_string g = (Return cn, g).
Proof.
  unfold parse_weather.
  destruct (nonempty wx_string); cbn [negb]; [|eexists; reflexivity].
  unfold bind at 1. rewrite lookup_in_run.
  destruct (WEATHER_PHENOMENA g !! wx_string); [eexists; reflexivity|].
  destruct (re_match_modifiers modifier_alternatives wx_string)
    as [[group1 rest]|]; [|eexists; reflexivity].
  unfold bind at 1. rewrite lookup_in_run.
  destruct (while_remaining_returns g (length rest) rest [] (le_n _))
    as [tokens Htok].
  rewrite (bind_return _ _ _ _ _ Htok).
  destruct (nonempty _ && nonempty tokens); [eexists; reflexivity|].
  destruct (nonempty tokens); eexists; reflexivity.
Qed.

(** An exact key of the phenomenon table is answered from the table,
    whatever the tables hold. *)
Lemma parse_weather_exact_key g code cn :
  code <> [] ->
  WEATHER_PHENOMENA g !! code = Some cn ->
  parse_weather code g = (Return cn, g).
Proof.
  intros Hne Hkey. unfold parse_weather.
  destruct code; [congruence|]. cbn [nonempty negb].
  unfold bind. rewrite lookup_in_run, Hkey. reflexivity.
Qed.

(** Every key of the phenomenon table has two characters. *)
Lemma phenomenon_keys_have_two_characters code cn :
  WEATHER_PHENOMENA module_globals !! code = Some cn -> length code = 2%nat.
Proof.
  intros H. apply elem_of_list_to_map_2 in H.
  repeat (apply elem_of_cons in H; destruct H as [H|H];
          [injection H as -> _; reflexivity|]).
  apply elem_of_nil in H. contradiction.
Qed.

(** C1 (as the code behaves): on "+TSRA" the sign is taken as the prefix and
    translated, but TS is a key of the modifier table only, so neither the
    three-character nor the two-character attempt matches the remainder
    "TSRA", which is kept verbatim: the result is the translation of "+"
    followed by "TSRA", not the three translations concatenated. *)
Theorem parse_weather_plus_TSRA :
  MODIFIERS module_globals !! u "+" = Some (u "强")
  /\ MODIFIERS module_globals !! u "TS" = Some (u "雷暴")
  /\ WEATHER_PHENOMENA module_globals !! u "RA" = Some (u "雨")
  /\ WEATHER_PHENOMENA module_globals !! u "TS" = None
  /\ parse_weather (u "+TSRA") module_globals
     = (Return (u "强TSRA"), module_globals)
  /\ u "强TSRA" <> u "强" ++ u "雷暴" ++ u "雨".
Proof. repeat split; vm_compute; congruence. Qed.

(** C5: for every code that is a key of the phenomenon table (all of them
    have two characters), [parse_weather] of that code alone returns exactly
    the table's translation. *)
Theorem parse_weather_table_code code cn :
  WEATHER_PHENOMENA module_globals !! code = Some cn ->
  parse_weather code module_globals = (Return cn, module_globals).
Proof.
  intros Hkey. apply parse_weather_exact_key; [|exact Hkey].
  intros ->. vm_compute in Hkey. discriminate.
Qed.

Lemma parse_weather_table_code_witness :
  WEATHER_PHENOMENA module_globals !! u "RA" = Some (u "雨")
  /\ parse_weather (u "RA") module_globals = (Return (u "雨"), module_globals).
Proof.
  split; [vm_compute; reflexivity|].
  apply (parse_weather_table_code (u "RA") (u "雨")). vm_compute. reflexivity.
Defined.

(** C6: when the loop reaches a non-empty remainder whose first three and
    first two characters are both absent from the phenomenon table, the whole
    remainder is appended as one token and the loop ends there; and
    [parse_weather] returns "ZZZZ" unchanged. *)
Theorem unmatched_remainder_is_literal :
  (forall g fuel remaining phenomena_cn,
      remaining <> [] ->
      WEATHER_PHENOMENA g !! take 3 remaining = None ->
      WEATHER_PHENOMENA g !! take 2 remaining = None ->
      while_remaining (S fuel) remaining phenomena_cn g
      = (Return (phenomena_cn ++ [remaining]), g))
  /\ parse_weather (u "ZZZZ") module_globals
     = (Return (u "ZZZZ"), module_globals).
Proof.
  split; [|vm_compute; reflexivity].
  intros g fuel remaining phenomena_cn Hne H3 H2.
  destruct remaining as [|c tl] eqn:Hrem; [congruence|]. rewrite <- Hrem in *.
  assert (Hunfold : while_remaining (S fuel) remaining phenomena_cn
    = (next <- loop_body remaining phenomena_cn ;;
       match next with
       | Continue remaining' phenomena_cn' =>
           while_remaining fuel remaining' phenomena_cn'
       | Break phenomena_cn' => ret phenomena_cn'
       end)) by (subst; reflexivity).
  rewrite Hunfold.
  rewrite (bind_return _ _ _ _ _ (loop_body_no_match g _ phenomena_cn Hne H3 H2)).
  reflexivity.
Qed.

(** C10: [parse_weather] terminates on every input.  Each pass through the
    loop body either continues with a remainder at least two characters
    shorter or appends the remainder and leaves the loop; so fuel equal to
    the length of the remainder is never exhausted, and [parse_weather]
    returns a string and leaves the tables as they were. *)
Theorem parse_weather_terminates :
  (forall g remaining phenomena_cn,
      remaining <> [] ->
      (exists remaining' phenomena_cn',
          loop_body remaining phenomena_cn g
          = (Return (Continue remaining' phenomena_cn'), g)
          /\ (length remaining' + 2 <= length remaining)%nat)
      \/ loop_body remaining phenomena_cn g
         = (Return (Break (phenomena_cn ++ [remaining])), g))
  /\ (forall g fuel remaining phenomena_cn,
         (length remaining <= fuel)%nat ->
         exists tokens,
           while_remaining fuel remaining phenomena_cn g = (Return tokens, g))
  /\ (forall g wx_string,
         exists cn, parse_weather wx_string g = (Return cn, g)).
Proof.
  split; [|split].
  - intros g remaining phenomena_cn Hne.
    destruct (loop_body_step g remaining phenomena_cn Hne)
      as [(n & cn & Hn & Hle & _ & Hstep) | Hstep]; [left|right; exact Hstep].
    exists (drop n remaining), (phenomena_cn ++ [cn]). split; [exact Hstep|].
    rewrite length_drop. destruct Hn; subst n; lia.
  - intros g fuel remaining phenomena_cn. apply while_remaining_returns.
  - intros g wx_string. apply parse_weather_returns.
Qed.

(** ** Computations that settle *)

Lemma settles_ret {A} (a : A) : settles (ret a).
Proof. intros g. left. exists a. reflexivity. Qed.

Lemma settles_raise {A} (e : exn) : settles (@raise A e).
Proof. intros g. right. exists e. reflexivity. Qed.

Lemma settles_global {A} (name : Globals -> A) : settles (global name).
Proof. intros g. left. eexists. reflexivity. Qed.

Lemma settles_bind {A B} (m : M A) (k : A -> M B) :
  settles m -> (forall a, settles (k a)) -> settles (x <- m ;; k x).
Proof.
  intros Hm Hk g. unfold bind.
  destruct (Hm g) as [[a Ha]|[e He]].
  - rewrite Ha. apply Hk.
  - rewrite He. right. exists e. reflexivity.
Qed.

Lemma settles_try_except {A} (m : M A) (h : exn -> M A) :
  settles m -> (forall e, settles (h e)) -> settles (try_except m h).
Proof.
  intros Hm Hh g. unfold try_except.
  destruct (Hm g) as [[a Ha]|[e He]].
  - rewrite Ha. left. exists a. reflexivity.
  - rewrite He. apply Hh.
Qed.

Lemma settles_lookup_in {V} (table : Globals -> gmap str V) key :
  settles (lookup_in table key).
Proof. intros g. left. eexists. reflexivity. Qed.

Lemma settles_parse_weather wx_string : settles (parse_weather wx_string).
Proof. intros g. left. apply parse_weather_returns. Qed.

Lemma settles_mapM {A B} (f : A -> M B) (l : list A) :
  (forall x, settles (f x)) -> settles (mapM f l).
Proof.
  intros Hf. induction l as [|x tl IH]; simpl.
  - apply settles_ret.
  - apply settles_bind; [apply Hf|intros y].
    apply settles_bind; [exact IH|intros ys]. apply settles_ret.
Qed.

Create HintDb settle.
#[local] Hint Resolve settles_ret settles_raise settles_global
  settles_lookup_in settles_parse_weather : settle.

(** Goes through a computation along its binds, handlers and case
    distinctions. *)
Ltac settle :=
  repeat first
    [ solve [auto with settle]
    | apply settles_bind; [|intros ?]
    | apply settles_try_except; [|intros ?]
    | apply settles_mapM; intros ?
    | match goal with
      | |- settles (match ?x with _ => _ end) => destruct x
      | |- settles (let _ := _ in _) => cbv zeta
      end ].

Lemma settles_py_get d key dflt : settles (py_get d key dflt).
Proof. unfold py_get. settle. Qed.

Lemma settles_table_lookup {V} (table : Globals -> gmap str V) key :
  settles (table_lookup table key).
Proof. unfold table_lookup. settle. Qed.

Lemma settles_float_of_int z : settles (float_of_int z).
Proof. unfold float_of_int. settle. Qed.

Lemma settles_py_int L v : settles (py_int L v).
Proof. unfold py_int. settle. Qed.

Lemma settles_format_2f v : settles (format_2f v).
Proof. unfold format_2f. settle. apply settles_float_of_int. Qed.

#[local] Hint Resolve settles_py_get settles_table_lookup settles_float_of_int
  settles_py_int settles_format_2f : settle.

Lemma settles_cloud_layer L c : settles (cloud_layer L c).
Proof. unfold cloud_layer. settle. Qed.

#[local] Hint Resolve settles_cloud_layer : settle.

Lemma settles_parse_clouds L clouds : settles (parse_clouds L clouds).
Proof. unfold parse_clouds, py_iter. settle. Qed.

Lemma settles_report_time L reportTime : settles (report_time L reportTime).
Proof. unfold report_time, replace_Z. settle. Qed.

Lemma settles_altim_text L altim raw_ob : settles (altim_text L altim raw_ob).
Proof. unfold altim_text, re_search_altim. settle. Qed.

Lemma settles_weather_text wx_raw : settles (weather_text wx_raw).
Proof. unfold weather_text. settle. Qed.

#[local] Hint Resolve settles_parse_clouds settles_report_time
  settles_altim_text settles_weather_text : settle.

Lemma settles_metar_lines L metar_data : settles (metar_lines L metar_data).
Proof. unfold metar_lines. settle. Qed.

#[local] Hint Resolve settles_metar_lines : settle.

Lemma settles_parse_metar L metar_data : settles (parse_metar L metar_data).
Proof. unfold parse_metar. settle. Qed.

(** ** Reading a successful run backwards *)

Lemma bind_returns_inv {A B} (m : M A) (k : A -> M B) g b g' :
  (x <- m ;; k x) g = (Return b, g') ->
  exists a g1, m g = (Return a, g1) /\ k a g1 = (Return b, g').
Proof.
  unfold bind. destruct (m g) as [[a|e|] g1]; intros H; try discriminate.
  exists a, g1. auto.
Qed.

Lemma py_get_dict_inv items key dflt g a g1 :
  py_get (VDict items) key dflt g = (Return a, g1) ->
  a = default dflt (assoc key items) /\ g1 = g.
Proof. unfold py_get, ret. intros H. injection H as <- <-. auto. Qed.

Lemma ret_inv {A} (a b : A) g g' : ret a g = (Return b, g') -> a = b /\ g = g'.
Proof. unfold ret. intros H. injection H as -> ->. auto. Qed.

Ltac invert_binds H :=
  repeat (apply bind_returns_inv in H;
          let a := fresh "a" in
          let g1 := fresh "g" in
          let Ha := fresh "Ha" in
          destruct H as (a & g1 & Ha & H);
          try (apply py_get_dict_inv in Ha; destruct Ha as [-> ->]);
          cbv beta in H).

Lemma in_grow {A} (x : A) (b : bool) l e :
  In x l -> In x (if b then l ++ e else l).
Proof. intros H. destruct b; [apply in_or_app; left|]; exact H. Qed.

Lemma in_app_left {A} (x : A) l e : In x l -> In x (l ++ e).
Proof. intros H. apply in_or_app. left. exact H. Qed.

(** Whenever the lines of a report are produced, the wind line is among
    them, with the text computed from the three wind fields. *)
Lemma wind_line_in_report L g items lines g' :
  metar_lines L (VDict items) g = (Return lines, g') ->
  In (u "💨 风向风速: "
      ++ wind_text L (default (VStr (u "N/A")) (assoc (u "wdir") items))
                     (default (VStr (u "N/A")) (assoc (u "wspd") items))
                     (default (VStr (u "")) (assoc (u "wgst") items))) lines.
Proof.
  intros H. unfold metar_lines in H. invert_binds H.
  cbv zeta in H.
  match type of H with
  | (match ?c with _ => _ end) _ = _ => destruct c as [[cat_name cat_emoji]|]
  end;
  apply ret_inv in H; destruct H as [<- _];
  try apply in_app_left;
  do 3 apply in_grow; apply in_app_left; apply in_grow;
  apply in_or_app; right; apply in_cons, in_cons, in_eq.
Qed.

(** ** [parse_clouds] *)

(** C2 (as the code behaves): for one BKN layer with base "050" the height
    clause shows the parsed number itself as feet, 50, and that number times
    0.3048 as meters, 15; the base is not multiplied by 100, so the clause
    "5000ft (1524m)" does not occur. *)
Theorem parse_clouds_broken_050 L :
  parse_clouds L broken_050 module_globals
  = (Return (u "多云(5-7/8)" ++ u " 云底 " ++ u "50ft (15m)"), module_globals)
  /\ contains (u "5000ft (1524m)")
       (u "多云(5-7/8)" ++ u " 云底 " ++ u "50ft (15m)") = false.
Proof. split; vm_compute; reflexivity. Qed.

(** ** [parse_metar] *)

(** C3, as stated, fails: for a record holding only a station name and code
    the report is not made of two lines (it does not hold exactly one
    newline). *)
Lemma station_only_report_is_not_two_lines :
  ~ exists L report,
      parse_metar L station_only module_globals = (Return report, module_globals)
      /\ length (filter (N.eqb 10) report) = 1%nat.
Proof.
  intros (L & report & Hrun & Hcount).
  vm_compute in Hrun. injection Hrun as <-.
  vm_compute in Hcount. discriminate.
Qed.

(** C3, amended: for a record holding at most a station name and a station
    code, the report has exactly five lines: the station line, the
    observation-time line showing N/A, the wind line showing the no-wind
    text, the visibility line showing N/A and the cloud line showing the
    no-clouds text.  The raw-text, weather, temperature, dew-point, pressure
    and flight-category lines are omitted. *)
Theorem station_only_report L g items :
  (forall key, key <> u "icaoId" -> key <> u "name" -> assoc key items = None) ->
  parse_metar L (VDict items) g
  = (Return
       (join newline
          [ u "📍 " ++ py_str L (default (VStr (u "N/A")) (assoc (u "name") items))
              ++ u " (" ++ py_str L (default (VStr (u "N/A")) (assoc (u "icaoId") items))
              ++ u ")";
            u "⏰ 观测时间: " ++ u "N/A";
            u "💨 风向风速: " ++ u "无风";
            u "👁️ 能见度: " ++ u "N/A";
            u "☁️ 云量: " ++ u "无云" ]), g).
Proof.
  intros Habsent.
  assert (Hkey : forall key,
             bool_decide (key = u "icaoId") = false ->
             bool_decide (key = u "name") = false ->
             assoc key items = None).
  { intros key H1 H2. apply Habsent.
    - intros ->. vm_compute in H1. discriminate.
    - intros ->. vm_compute in H2. discriminate. }
  unfold parse_metar, metar_lines, try_except, bind, py_get, ret.
  rewrite (Hkey (u "rawOb")), (Hkey (u "reportTime")), (Hkey (u "wdir")),
    (Hkey (u "wspd")), (Hkey (u "wgst")), (Hkey (u "visib")),
    (Hkey (u "wxString")), (Hkey (u "clouds")), (Hkey (u "temp")),
    (Hkey (u "dewp")), (Hkey (u "altim")), (Hkey (u "fltCat"))
    by (vm_compute; reflexivity).
  vm_compute. reflexivity.
Qed.

Lemma station_only_report_witness :
  parse_metar sample_runtime station_only module_globals
  = (Return
       (join newline
          [ u "📍 " ++ u "Shanghai" ++ u " (" ++ u "ZSSS" ++ u ")";
            u "⏰ 观测时间: " ++ u "N/A";
            u "💨 风向风速: " ++ u "无风";
            u "👁️ 能见度: " ++ u "N/A";
            u "☁️ 云量: " ++ u "无云" ]), module_globals).
Proof.
  apply (station_only_report sample_runtime module_globals
           [(u "icaoId", VStr (u "ZSSS")); (u "name", VStr (u "Shanghai"))]).
  intros key Hicao Hname. cbn [assoc].
  rewrite !bool_decide_eq_false_2 by congruence. reflexivity.
Defined.

(** C4, as stated, fails: a record whose gust field is present and holds
    zero, with direction 270 and speed 10, gets a report with no gust
    clause. *)
Lemma zero_gust_has_no_clause :
  ~ exists L report,
      parse_metar L calm_gust module_globals = (Return report, module_globals)
      /\ contains (u " 阵风 ") report = true.
Proof.
  intros (L & report & Hrun & Hclause).
  vm_compute in Hrun. injection Hrun as <-.
  vm_compute in Hclause. discriminate.
Qed.

(** C4, amended: when the wind direction and speed are present, the
    direction is not "VRB" and neither is the string "N/A", the wind line of
    the report is the direction, the degree sign and a slash, the speed and
    "kt", followed by a gust clause if and only if the gust field is present
    with a value that Python holds true (not zero, not empty, not null).  A
    record with no gust field has no gust clause. *)
Theorem wind_line_gust_clause L g items lines windDir windSpeed :
  assoc (u "wdir") items = Some windDir ->
  assoc (u "wspd") items = Some windSpeed ->
  eq_str windDir (u "VRB") = false ->
  eq_str windDir (u "N/A") = false ->
  eq_str windSpeed (u "N/A") = false ->
  metar_lines L (VDict items) g = (Return lines, g) ->
  In (u "💨 风向风速: "
      ++ py_str L windDir ++ u "°/" ++ py_str L windSpeed ++ u "kt"
      ++ match assoc (u "wgst") items with
         | Some gust =>
             if truthy gust then u " 阵风 " ++ py_str L gust ++ u "kt" else u ""
         | None => u ""
         end) lines.
Proof.
  intros Hdir Hspeed Hvrb Hdir_na Hspeed_na Hrun.
  pose proof (wind_line_in_report L g items lines g Hrun) as Hin.
  rewrite Hdir, Hspeed in Hin. cbn [from_option id] in Hin.
  unfold wind_text in Hin. rewrite Hvrb, Hdir_na, Hspeed_na in Hin.
  cbn [orb] in Hin.
  destruct (assoc (u "wgst") items) as [gust|]; exact Hin.
Qed.

Lemma wind_line_gust_clause_witness :
  In (u "💨 风向风速: " ++ u "270" ++ u "°/" ++ u "10" ++ u "kt"
      ++ u " 阵风 " ++ u "25" ++ u "kt")
     [ u "📍 " ++ u "N/A" ++ u " (" ++ u "N/A" ++ u ")";
       u "⏰ 观测时间: " ++ u "N/A";
       u "💨 风向风速: " ++ u "270" ++ u "°/" ++ u "10" ++ u "kt"
         ++ u " 阵风 " ++ u "25" ++ u "kt";
       u "👁️ 能见度: " ++ u "N/A";
       u "☁️ 云量: " ++ u "无云" ].
Proof.
  apply (wind_line_gust_clause sample_runtime module_globals
           [(u "wdir", VInt 270); (u "wspd", VInt 10); (u "wgst", VInt 25)]
           _ (VInt 270) (VInt 10)); reflexivity.
Defined.

(** C7, as stated, fails: a raw text may contain "A2992" after an earlier
    group of the letter A and four digits, and the earlier group is the one
    shown. *)
Lemma earlier_altimeter_group_is_shown :
  contains (u "A2992") (u "A3012 A2992") = true
  /\ ~ exists L report,
        altim_text L (VFloat altim_29_92) (VStr (u "A3012 A2992")) module_globals
        = (Return report, module_globals)
        /\ contains (u "A29.92") report = true.
Proof.
  split; [vm_compute; reflexivity|].
  intros (L & report & Hrun & Hshown).
  vm_compute in Hrun. injection Hrun as <-.
  vm_compute in Hshown. discriminate.
Qed.

(** What the search returns stands in the raw text after a letter A. *)
Lemma search_altim_contains L raw digits :
  search_altim L raw = Some digits -> contains (65 :: digits) raw = true.
Proof.
  induction raw as [|c tl IH]; [discriminate|].
  cbn [search_altim].
  destruct ((c =? 65) && (4 <=? length tl)%nat && forallb (is_digit L) (take 4 tl))
    eqn:Hhere; intros H.
  - injection H as <-.
    apply andb_prop in Hhere as [Hhere _]. apply andb_prop in Hhere as [Hc Hlen].
    apply N.eqb_eq in Hc. subst c. apply Nat.leb_le in Hlen.
    cbn [contains]. apply orb_true_iff. left. apply bool_decide_eq_true.
    cbn [length take]. rewrite length_take. f_equal.
    rewrite Nat.min_l by lia. reflexivity.
  - cbn [contains]. apply orb_true_iff. right. apply IH. exact H.
Qed.

(** C7, amended: with the pressure value 29.92 and a raw text in which the
    leftmost letter A followed by four digits is "A2992", the pressure text
    is "29.92 inHg A29.92": the four digits are read as hundredths and shown
    with two decimals, so the text contains both "29.92 inHg" and "A29.92". *)
Theorem pressure_text_with_altimeter_group L g raw :
  search_altim L raw = Some (u "2992") ->
  contains (u "A2992") raw = true
  /\ altim_text L (VFloat altim_29_92) (VStr raw) g
     = (Return (u "29.92" ++ u " inHg A" ++ u "29.92"), g)
  /\ contains (u "29.92 inHg") (u "29.92" ++ u " inHg A" ++ u "29.92") = true
  /\ contains (u "A29.92") (u "29.92" ++ u " inHg A" ++ u "29.92") = true.
Proof.
  intros Hsearch. split; [exact (search_altim_contains L raw _ Hsearch)|].
  split; [|split; vm_compute; reflexivity].
  unfold altim_text, re_search_altim, bind, ret. cbn [eq_str negb].
  rewrite Hsearch. vm_compute. reflexivity.
Qed.

Lemma pressure_text_with_altimeter_group_witness :
  search_altim sample_runtime raw_report = Some (u "2992")
  /\ altim_text sample_runtime (VFloat altim_29_92) (VStr raw_report) module_globals
     = (Return (u "29.92" ++ u " inHg A" ++ u "29.92"), module_globals).
Proof.
  split; [vm_compute; reflexivity|].
  apply (pressure_text_with_altimeter_group sample_runtime module_globals raw_report).
  vm_compute. reflexivity.
Defined.

(** C8: [parse_metar] returns a string for every input and raises nothing:
    whatever exception the assembly of the lines raises is turned into the
    parse-failure message, as for a record whose pressure is a text. *)
Theorem parse_metar_always_returns L metar_data g :
  (exists report, parse_metar L metar_data g = (Return report, g))
  /\ (forall e,
        metar_lines L metar_data g = (Raise e, g) ->
        parse_metar L metar_data g = (Return (u "解析失败: " ++ exn_str L e), g))
  /\ (forall lines,
        metar_lines L metar_data g = (Return lines, g) ->
        parse_metar L metar_data g = (Return (join newline lines), g))
  /\ parse_metar L pressure_as_text g
     = (Return (u "解析失败: " ++ exn_str L ValueError_format), g).
Proof.
  split; [|split; [|split]].
  - unfold parse_metar, try_except, bind.
    destruct (settles_metar_lines L metar_data g) as [[lines H]|[e H]];
      rewrite H; eexists; reflexivity.
  - intros e H. unfold parse_metar, try_except, bind. rewrite H. reflexivity.
  - intros lines H. unfold parse_metar, try_except, bind. rewrite H. reflexivity.
  - reflexivity.
Qed.

(** ** Further examples *)

(** [int] does not strip the separators U+001C to U+001F, and refuses a
    literal of more digits than the interpreter converts. *)
Example int_of_str_separator L : int_of_str L [28; 55] = None.
Proof. reflexivity. Qed.

Example int_of_str_ideographic_space L : int_of_str L [12288; 55] = Some 7%Z.
Proof. reflexivity. Qed.

Example int_of_str_digit_limit :
  found (int_of_str sample_runtime (repeat 49 4300)) = true
  /\ int_of_str sample_runtime (repeat 49 4301) = None.
Proof. split; vm_compute; reflexivity. Qed.

Example parse_weather_empty g : parse_weather (u "") g = (Return (u ""), g).
Proof. reflexivity. Qed.

Example parse_weather_MIFG :
  parse_weather (u "MIFG") module_globals
  = (Return (u "浅" ++ u "雾"), module_globals).
Proof. vm_compute. reflexivity. Qed.

Example parse_clouds_none L g : parse_clouds L (VList []) g = (Return (u "无云"), g).
Proof. reflexivity. Qed.

(** * Further properties of the code *)

(** ** [_handle_response] *)

(** X1: the dict returned by [_handle_response] always has the key "success"
    with a boolean.  When it is true the status was 200, the body decoded to
    a value that Python holds true, and "data" holds that value unchanged;
    when it is false, "error" holds a text.  So the handlers' subscripts
    "success", "data" and "error" never miss their key. *)
Theorem handle_response_shape r :
  (subscript_key (_handle_response r) (u "success") = Some (VBool true)
   /\ status r = 200%Z
   /\ exists data,
       json r = JsonData data /\ truthy data = true
       /\ subscript_key (_handle_response r) (u "data") = Some data)
  \/ (subscript_key (_handle_response r) (u "success") = Some (VBool false)
      /\ exists error,
          subscript_key (_handle_response r) (u "error") = Some (VStr error)).
Proof.
  unfold _handle_response.
  destruct (status r =? 200)%Z eqn:Hstatus.
  - apply Z.eqb_eq in Hstatus.
    destruct (json r) as [data|text] eqn:Hjson.
    + destruct (truthy data) eqn:Htruthy; cbn [negb].
      * left. split; [reflexivity|]. split; [exact Hstatus|].
        exists data. auto.
      * right. split; [reflexivity|]. eexists. reflexivity.
    + right. split; [reflexivity|]. eexists. reflexivity.
  - right. split; [reflexivity|]. eexists. reflexivity.
Qed.

(** X2: for a status other than 200 the body is never read: the result is a
    failure whose text is the entry of the status in the message table, or,
    for a status the table does not list, the generic text ending in the
    status number. *)
Theorem handle_response_error_status r :
  status r <> 200%Z ->
  (forall body, _handle_response {| status := status r; json := body |}
                = _handle_response r)
  /\ (forall message,
         error_messages !! status r = Some message ->
         _handle_response r = failed message)
  /\ (error_messages !! status r = None ->
      _handle_response r
      = failed (u "请求失败，状态码: " ++ decimal (status r))).
Proof.
  intros Hstatus. apply Z.eqb_neq in Hstatus.
  unfold _handle_response. cbn [status json]. rewrite Hstatus.
  split; [reflexivity|]. split.
  - intros message ->. reflexivity.
  - intros ->. reflexivity.
Qed.

Lemma handle_response_error_status_witness :
  _handle_response {| status := 404; json := JsonError (u "") |}
  = failed (u "未找到该机场")
  /\ _handle_response {| status := 503; json := JsonError (u "") |}
     = failed (u "请求失败，状态码: " ++ u "503").
Proof.
  split.
  - apply (handle_response_error_status
             {| status := 404; json := JsonError (u "") |});
      [discriminate | vm_compute; reflexivity].
  - apply (handle_response_error_status
             {| status := 503; json := JsonError (u "") |});
      [discriminate | vm_compute; reflexivity].
Defined.

(** ** The chat commands *)

Lemma handle_response_cases r :
  (exists data,
      _handle_response r = succeeded data /\ status r = 200%Z
      /\ json r = JsonData data /\ truthy data = true)
  \/ (exists error, _handle_response r = failed error).
Proof.
  unfold _handle_response.
  destruct (status r =? 200)%Z eqn:Hstatus; [|right; eexists; reflexivity].
  apply Z.eqb_eq in Hstatus.
  destruct (json r) as [data|text]; [|right; eexists; reflexivity].
  destruct (truthy data) eqn:Htruthy; cbn [negb].
  - left. exists data. auto.
  - right. eexists. reflexivity.
Qed.

Ltac split_leb :=
  repeat match goal with
         | |- context [(?a <=? ?b)%N] => destruct (N.leb_spec a b)
         | |- context [(?a <? ?b)%N] => destruct (N.ltb_spec a b)
         end.

Lemma upper_char_ascii T c :
  c < 128 ->
  exists c', upper_char T c = [c'] /\ c' < 128
             /\ ascii_letter c' = ascii_letter c
             /\ alpha_char T c' = ascii_letter c
             /\ upper_char T c' = [c'].
Proof.
  intros Hc. unfold upper_char.
  destruct ((97 <=? c) && (c <=? 122)) eqn:Hlower.
  - apply andb_prop in Hlower as [H1 H2].
    apply N.leb_le in H1. apply N.leb_le in H2.
    exists (c - 32). split; [reflexivity|]. split; [lia|].
    unfold alpha_char, ascii_letter.
    repeat split; split_leb; cbn; try reflexivity; try lia.
  - exists c. split; [|split; [exact Hc|]].
    + destruct (N.ltb_spec c 128); [reflexivity|lia].
    + unfold alpha_char, ascii_letter. rewrite Hlower.
      repeat split; split_leb; cbn; try reflexivity; try lia.
Qed.

(** On ASCII text [upper] keeps the length, changes no letter into a
    non-letter or back, and is idempotent. *)
Lemma upper_ascii T code :
  Forall (fun c => c < 128) code ->
  length (upper T code) = length code
  /\ forallb (alpha_char T) (upper T code) = forallb ascii_letter code
  /\ upper T (upper T code) = upper T code.
Proof.
  induction 1 as [|c code Hc _ (IHlen & IHalpha & IHidem)];
    [repeat split; reflexivity|].
  destruct (upper_char_ascii T c Hc) as (c' & Hup & _ & _ & Halpha & Hfix).
  unfold upper in *. cbn [flat_map]. rewrite Hup.
  cbn [app length forallb flat_map]. rewrite Hfix, IHlen, IHalpha, IHidem, Halpha.
  repeat split; reflexivity.
Qed.

Lemma ascii_letter_lt c : ascii_letter c = true -> c < 128.
Proof. unfold ascii_letter. split_leb; cbn; intros; try discriminate; lia. Qed.

Lemma check_passes T code :
  length code = 4%nat ->
  Forall (fun c => ascii_letter c = true) code ->
  negb (isalpha T (upper T code)) || negb (length (upper T code) =? 4)%nat
  = false.
Proof.
  intros Hlen Hletters.
  assert (Hascii : Forall (fun c => c < 128) code).
  { eapply Forall_impl; [exact Hletters|]. intros c. apply ascii_letter_lt. }
  destruct (upper_ascii T code Hascii) as (Hl & Halpha & _).
  unfold isalpha. rewrite Hl, Halpha, Hlen.
  assert (Hall : forallb ascii_letter code = true).
  { apply forallb_forall. intros c Hc.
    rewrite Forall_forall in Hletters. apply Hletters.
    apply list_elem_of_In. exact Hc. }
  rewrite Hall.
  destruct (upper T code); [discriminate Hl + (rewrite Hlen in Hl; discriminate)|].
  reflexivity.
Qed.

Lemma check_fails T code :
  Forall (fun c => c < 128) code ->
  length code <> 4%nat \/ forallb ascii_letter code = false ->
  negb (isalpha T (upper T code)) || negb (length (upper T code) =? 4)%nat
  = true.
Proof.
  intros Hascii Hbad.
  destruct (upper_ascii T code Hascii) as (Hl & Halpha & _).
  unfold isalpha. rewrite Hl, Halpha.
  destruct Hbad as [Hlen|Hletter].
  - apply Nat.eqb_neq in Hlen. rewrite Hlen. apply orb_true_r.
  - rewrite Hletter, andb_false_r. reflexivity.
Qed.

Lemma command_after_check T L fetch on_data icao_code g :
  negb (isalpha T (upper T icao_code)) || negb (length (upper T icao_code) =? 4)%nat
  = false ->
  command T L fetch on_data icao_code g
  = match fetch (upper T icao_code) with
    | None => (Faulted ConnectionFault, g)
    | Some result => answer L on_data result g
    end.
Proof. intros Hcheck. unfold command. cbv zeta. rewrite Hcheck. reflexivity. Qed.

Lemma answer_succeeded L on_data data g :
  answer L on_data (succeeded data) g = on_data data g.
Proof. reflexivity. Qed.

Lemma answer_failed L on_data error g :
  answer L on_data (failed error) g = (Replied [u "❌ " ++ error], g).
Proof. reflexivity. Qed.

(** X3: a code of ASCII characters that has not exactly four characters, or
    has one that is no letter, is answered by the format-error reply alone,
    by both commands, whatever the network would answer: nothing is
    fetched. *)
Theorem malformed_code_is_rejected T L net icao_code g :
  Forall (fun c => c < 128) icao_code ->
  length icao_code <> 4%nat \/ forallb ascii_letter icao_code = false ->
  get_metar T L net icao_code g = (Replied [format_error_reply], g)
  /\ get_taf T L net icao_code g = (Replied [format_error_reply], g).
Proof.
  intros Hascii Hbad. pose proof (check_fails T icao_code Hascii Hbad) as Hcheck.
  unfold get_metar, get_taf, command. cbv zeta. rewrite Hcheck.
  split; reflexivity.
Qed.

Lemma malformed_code_is_rejected_witness :
  get_metar plain_unicode sample_runtime offline (u "ZS1S") module_globals
  = (Replied [format_error_reply], module_globals)
  /\ get_taf plain_unicode sample_runtime offline (u "ZS1S") module_globals
     = (Replied [format_error_reply], module_globals).
Proof.
  apply (malformed_code_is_rejected plain_unicode sample_runtime offline
           (u "ZS1S") module_globals).
  - repeat constructor.
  - right. vm_compute. reflexivity.
Defined.

(** X4: both commands treat a code of ASCII characters and its upper-case
    form alike. *)
Theorem commands_ignore_case T L net icao_code g :
  Forall (fun c => c < 128) icao_code ->
  get_metar T L net (upper T icao_code) g = get_metar T L net icao_code g
  /\ get_taf T L net (upper T icao_code) g = get_taf T L net icao_code g.
Proof.
  intros Hascii. destruct (upper_ascii T icao_code Hascii) as (_ & _ & Hidem).
  unfold get_metar, get_taf, command. cbv zeta. rewrite Hidem.
  split; reflexivity.
Qed.

Lemma commands_ignore_case_witness :
  get_metar plain_unicode sample_runtime offline
    (upper plain_unicode (u "zsss")) module_globals
  = get_metar plain_unicode sample_runtime offline (u "zsss") module_globals.
Proof.
  apply (commands_ignore_case plain_unicode sample_runtime offline (u "zsss")).
  repeat constructor.
Defined.

(** X5: for a code of four ASCII letters that the server answers with status
    200 and a JSON list, [get_metar] fetches the METAR URL of the upper-case
    code and replies once, with the report of the first record of the list
    followed by the disclaimer; the other records are not shown. *)
Theorem get_metar_reports_first_record T L net icao_code g r first others :
  length icao_code = 4%nat ->
  Forall (fun c => ascii_letter c = true) icao_code ->
  net (metar_url (upper T icao_code)) = Some r ->
  status r = 200%Z ->
  json r = JsonData (VList (first :: others)) ->
  exists report,
    parse_metar L first g = (Return report, g)
    /\ get_metar T L net icao_code g = (Replied [report ++ disclaimer], g).
Proof.
  intros Hlen Hletters Hnet Hstatus Hjson.
  destruct (settles_parse_metar L first g) as [[report Hrun]|[e Hrun]].
  - exists report. split; [exact Hrun|].
    unfold get_metar.
    rewrite (command_after_check _ _ _ _ _ _ (check_passes T icao_code Hlen Hletters)).
    unfold fetch_metar. rewrite Hnet. cbn [fmap option_fmap option_map].
    assert (Hresult : _handle_response r = succeeded (VList (first :: others))).
    { unfold _handle_response. rewrite Hstatus, Hjson. reflexivity. }
    rewrite Hresult, answer_succeeded. cbn [subscript_0]. rewrite Hrun.
    reflexivity.
  - exfalso. unfold parse_metar, try_except in Hrun.
    destruct ((lines <- metar_lines L first ;; ret (join newline lines)) g)
      as [[a|e'|] g']; discriminate.
Qed.

Lemma get_metar_reports_first_record_witness :
  exists report,
    parse_metar sample_runtime station_only module_globals
    = (Return report, module_globals)
    /\ get_metar plain_unicode sample_runtime
         (answering {| status := 200; json := JsonData (VList [station_only]) |})
         (u "zsss") module_globals
       = (Replied [report ++ disclaimer], module_globals).
Proof.
  apply (get_metar_reports_first_record plain_unicode sample_runtime
           (answering {| status := 200; json := JsonData (VList [station_only]) |})
           (u "zsss") module_globals
           {| status := 200; json := JsonData (VList [station_only]) |}
           station_only []).
  - reflexivity.
  - repeat constructor.
  - reflexivity.
  - reflexivity.
  - reflexivity.
Defined.

Lemma handle_response_not_200 r :
  status r <> 200%Z ->
  _handle_response r
  = failed (default (u "请求失败，状态码: " ++ decimal (status r))
                    (error_messages !! status r)).
Proof.
  intros Hstatus. apply Z.eqb_neq in Hstatus.
  unfold _handle_response. rewrite Hstatus. reflexivity.
Qed.

(** X6: for a code of four ASCII letters, whenever the handling of the
    server's response yields a failure (a status other than 200, an empty
    body, a body that does not decode), both commands reply once, with a
    cross mark followed by the error text of that failure. *)
Theorem failed_fetch_is_reported T L net icao_code g r error :
  length icao_code = 4%nat ->
  Forall (fun c => ascii_letter c = true) icao_code ->
  _handle_response r = failed error ->
  (net (metar_url (upper T icao_code)) = Some r ->
   get_metar T L net icao_code g = (Replied [u "❌ " ++ error], g))
  /\ (net (taf_url (upper T icao_code)) = Some r ->
      get_taf T L net icao_code g = (Replied [u "❌ " ++ error], g)).
Proof.
  intros Hlen Hletters Hfailed.
  pose proof (check_passes T icao_code Hlen Hletters) as Hcheck.
  split; intros Hnet; unfold get_metar, get_taf;
    rewrite (command_after_check _ _ _ _ _ _ Hcheck);
    unfold fetch_metar, fetch_taf; rewrite Hnet;
    cbn [fmap option_fmap option_map]; rewrite Hfailed; apply answer_failed.
Qed.

Lemma failed_fetch_is_reported_witness :
  _handle_response {| status := 404; json := JsonError (u "") |}
  = failed (u "未找到该机场")
  /\ get_metar plain_unicode sample_runtime
       (answering {| status := 404; json := JsonError (u "") |})
       (u "ZZZZ") module_globals
     = (Replied [u "❌ " ++ u "未找到该机场"], module_globals).
Proof.
  split; [vm_compute; reflexivity|].
  refine (proj1 (failed_fetch_is_reported plain_unicode sample_runtime
           (answering {| status := 404; json := JsonError (u "") |})
           (u "ZZZZ") module_globals
           {| status := 404; json := JsonError (u "") |}
           (u "未找到该机场") _ _ _) _).
  - reflexivity.
  - repeat constructor.
  - vm_compute. reflexivity.
  - reflexivity.
Defined.

(** X7: a run of [get_metar] leaves the tables as they were and ends in one
    of four ways: with exactly one reply; with the connection failure of the
    fetch; or with the exception of taking element 0 of a body that is a
    JSON object (KeyError) or a number or boolean (TypeError).  It never
    misses a key of the fetch result, never indexes an empty list, and no
    exception of [parse_metar] reaches it. *)
Theorem get_metar_outcomes T L net icao_code g :
  exists out,
    get_metar T L net icao_code g = (out, g)
    /\ ((exists text, out = Replied [text])
        \/ out = Faulted ConnectionFault
        \/ out = Faulted KeyError_0
        \/ out = Faulted TypeError_subscript).
Proof.
  unfold get_metar, command. cbv zeta.
  destruct (negb _ || negb _); [eexists; split; [reflexivity|left; eauto]|].
  unfold fetch_metar.
  destruct (net _) as [r|]; cbn [fmap option_fmap option_map];
    [|eexists; split; [reflexivity|auto]].
  destruct (handle_response_cases r)
    as [(data & -> & _ & _ & Htruthy)|(error & ->)].
  - rewrite answer_succeeded.
    destruct data as [| b | z | f | s | l | items]; cbn [subscript_0];
      try (eexists; split; [reflexivity|auto]).
    + destruct s as [|c s]; [discriminate|].
      destruct (settles_parse_metar L (VStr [c]) g) as [[report Hrun]|[e Hrun]].
      * rewrite Hrun. eexists; split; [reflexivity|left; eauto].
      * exfalso. unfold parse_metar, try_except in Hrun.
        destruct ((lines <- metar_lines L (VStr [c]) ;; ret (join newline lines)) g)
          as [[a|e'|] g']; discriminate.
    + destruct l as [|first l]; [discriminate|].
      destruct (settles_parse_metar L first g) as [[report Hrun]|[e Hrun]].
      * rewrite Hrun. eexists; split; [reflexivity|left; eauto].
      * exfalso. unfold parse_metar, try_except in Hrun.
        destruct ((lines <- metar_lines L first ;; ret (join newline lines)) g)
          as [[a|e'|] g']; discriminate.
  - rewrite answer_failed. eexists; split; [reflexivity|left; eauto].
Qed.

(** X8: for a code of four ASCII letters that the server answers with status
    200 and a JSON list, [get_taf] replies with the "rawTAF" field of the
    first record, or with the no-TAF text when that record has no such
    field, between the heading line and the trailing blank lines.  When the
    first element of the list is not an object, the AttributeError of its
    missing [get] leaves the handler: nothing catches it. *)
Theorem get_taf_replies_raw_text T L net icao_code g r first others :
  length icao_code = 4%nat ->
  Forall (fun c => ascii_letter c = true) icao_code ->
  net (taf_url (upper T icao_code)) = Some r ->
  status r = 200%Z ->
  json r = JsonData (VList (first :: others)) ->
  (forall items,
      first = VDict items ->
      get_taf T L net icao_code g
      = (Replied
           [u "📄 报文:" ++ newline
            ++ py_str L (default (VStr (u "无TAF报文")) (assoc (u "rawTAF") items))
            ++ u " " ++ newline ++ newline], g))
  /\ ((forall items, first <> VDict items) ->
      get_taf T L net icao_code g = (Propagated (AttributeError_get first), g)).
Proof.
  intros Hlen Hletters Hnet Hstatus Hjson.
  assert (Hrun : get_taf T L net icao_code g
    = match py_get first (u "rawTAF") (VStr (u "无TAF报文")) g with
      | (Return raw_taf, g') =>
          (Replied [u "📄 报文:" ++ newline ++ py_str L raw_taf
                    ++ u " " ++ newline ++ newline], g')
      | (Raise e, g') => (Propagated e, g')
      | (OutOfFuel, g') => (Stalled, g')
      end).
  { unfold get_taf.
    rewrite (command_after_check _ _ _ _ _ _ (check_passes T icao_code Hlen Hletters)).
    unfold fetch_taf. rewrite Hnet. cbn [fmap option_fmap option_map].
    assert (Hresult : _handle_response r = succeeded (VList (first :: others))).
    { unfold _handle_response. rewrite Hstatus, Hjson. reflexivity. }
    rewrite Hresult, answer_succeeded. reflexivity. }
  rewrite Hrun. split.
  - intros items ->. reflexivity.
  - intros Hother. destruct first; try reflexivity.
    exfalso. eapply Hother. reflexivity.
Qed.

Lemma get_taf_replies_raw_text_witness :
  get_taf plain_unicode sample_runtime
    (answering {| status := 200;
                  json := JsonData (VList [VDict [(u "rawTAF", VStr (u "TAF ZSSS"))]]) |})
    (u "zsss") module_globals
  = (Replied
       [u "📄 报文:" ++ newline
        ++ py_str sample_runtime
             (default (VStr (u "无TAF报文"))
                (assoc (u "rawTAF") [(u "rawTAF", VStr (u "TAF ZSSS"))]))
        ++ u " " ++ newline ++ newline], module_globals).
Proof.
  refine (proj1 (get_taf_replies_raw_text plain_unicode sample_runtime
           (answering {| status := 200;
                         json := JsonData (VList [VDict [(u "rawTAF", VStr (u "TAF ZSSS"))]]) |})
           (u "zsss") module_globals
           {| status := 200;
              json := JsonData (VList [VDict [(u "rawTAF", VStr (u "TAF ZSSS"))]]) |}
           (VDict [(u "rawTAF", VStr (u "TAF ZSSS"))]) [] _ _ _ _ _)
           [(u "rawTAF", VStr (u "TAF ZSSS"))] _).
  - reflexivity.
  - repeat constructor.
  - reflexivity.
  - reflexivity.
  - reflexivity.
  - reflexivity.
Defined.

(** ** More on [parse_weather] *)

Lemma dot_star_eol_clean s : no_newline s = true -> dot_star_eol s = Some s.
Proof. intros H. unfold dot_star_eol. rewrite H. reflexivity. Qed.

Lemma re_match_skip q alts s :
  starts_with q s = false ->
  re_match_modifiers (q :: alts) s = re_match_modifiers alts s.
Proof. intros H. cbn [re_match_modifiers]. rewrite H. reflexivity. Qed.

Lemma re_match_take p alts s rest :
  starts_with p s = true ->
  dot_star_eol (drop (length p) s) = Some rest ->
  re_match_modifiers (p :: alts) s = Some (Some p, rest).
Proof. intros H1 H2. cbn [re_match_modifiers]. rewrite H1, H2. reflexivity. Qed.

Lemma re_match_picks_prefix p rest :
  p ∈ modifier_alternatives ->
  no_newline rest = true ->
  re_match_modifiers modifier_alternatives (p ++ rest) = Some (Some p, rest).
Proof.
  intros Hp Hclean. pose proof (dot_star_eol_clean rest Hclean) as Hrest.
  unfold modifier_alternatives in *.
  repeat (apply elem_of_cons in Hp; destruct Hp as [->|Hp];
          [repeat (rewrite re_match_skip by (vm_compute; reflexivity));
           apply re_match_take;
           [vm_compute; reflexivity | rewrite drop_app_length; exact Hrest]|]).
  apply elem_of_nil in Hp. contradiction.
Qed.

Lemma re_match_no_prefix code cn tail :
  WEATHER_PHENOMENA module_globals !! code = Some cn ->
  re_match_modifiers modifier_alternatives (code ++ tail)
  = match dot_star_eol (code ++ tail) with
    | Some rest => Some (None, rest)
    | None => None
    end.
Proof.
  intros H. apply elem_of_list_to_map_2 in H. unfold modifier_alternatives.
  repeat (apply elem_of_cons in H; destruct H as [H|H];
          [injection H as -> _;
           repeat (rewrite re_match_skip by (vm_compute; reflexivity));
           reflexivity|]).
  apply elem_of_nil in H. contradiction.
Qed.

Lemma phenomenon_key_facts code cn :
  WEATHER_PHENOMENA module_globals !! code = Some cn ->
  no_newline code = true /\ cn <> [].
Proof.
  intros H. apply elem_of_list_to_map_2 in H.
  repeat (apply elem_of_cons in H; destruct H as [H|H];
          [injection H as -> ->; split; vm_compute; congruence|]).
  apply elem_of_nil in H. contradiction.
Qed.

Lemma not_a_phenomenon_key code :
  length code <> 2%nat -> WEATHER_PHENOMENA module_globals !! code = None.
Proof.
  intros Hlen.
  destruct (WEATHER_PHENOMENA module_globals !! code) as [cn|] eqn:H;
    [|reflexivity].
  apply phenomenon_keys_have_two_characters in H. contradiction.
Qed.

(** A pass through the loop body whose three-character attempt fails and
    whose two-character attempt matches consumes the two characters. *)
Lemma loop_body_two g remaining phenomena_cn cn :
  (length remaining < 3)%nat \/ WEATHER_PHENOMENA g !! take 3 remaining = None ->
  (2 <= length remaining)%nat ->
  WEATHER_PHENOMENA g !! take 2 remaining = Some cn ->
  loop_body remaining phenomena_cn g
  = (Return (Continue (drop 2 remaining) (phenomena_cn ++ [cn])), g).
Proof.
  intros H3 Hlen H2. unfold loop_body, bind.
  apply Nat.leb_le in Hlen.
  destruct (3 <=? length remaining)%nat eqn:E3.
  - destruct H3 as [H3|H3]; [apply Nat.leb_le in E3; lia|].
    rewrite lookup_in_run, H3. cbn [ret negb andb].
    rewrite Hlen, lookup_in_run, H2. reflexivity.
  - cbn [ret negb andb]. rewrite Hlen, lookup_in_run, H2. reflexivity.
Qed.

(** The loop on a concatenation of phenomenon codes yields their
    translations, in order. *)
Lemma tokens_of_codes codes cns :
  Forall2 (fun code cn => WEATHER_PHENOMENA module_globals !! code = Some cn)
          codes cns ->
  forall fuel phenomena_cn,
    (length (concat codes) <= fuel)%nat ->
    while_remaining fuel (concat codes) phenomena_cn module_globals
    = (Return (phenomena_cn ++ cns), module_globals).
Proof.
  induction 1 as [|code cn codes cns Hkey _ IH]; intros fuel phenomena_cn Hfuel.
  - cbn [concat]. destruct fuel; cbn [while_remaining]; rewrite app_nil_r;
      reflexivity.
  - pose proof (phenomenon_keys_have_two_characters code cn Hkey) as Hlen.
    destruct code as [|c1 [|c2 [|c3 code]]]; try discriminate Hlen.
    cbn [concat app] in *.
    destruct fuel as [|fuel]; [cbn [length] in Hfuel; lia|].
    cbn [while_remaining].
    rewrite (bind_return _ _ _ _ _
               (loop_body_two module_globals (c1 :: c2 :: concat codes)
                  phenomena_cn cn
                  ltac:(destruct (concat codes) as [|c3 tl];
                        [left; cbn; lia
                        |right; apply not_a_phenomenon_key; cbn; lia])
                  ltac:(cbn; lia) Hkey)).
    cbn [drop]. rewrite IH by (cbn [length] in Hfuel; lia).
    rewrite <- app_assoc. reflexivity.
Qed.

(** [parse_weather] once the whole-string test has failed, stated by the
    regex groups and the tokens of the loop. *)
Lemma parse_weather_by_tokens g wx_string group1 rest prefix_cn tokens :
  wx_string <> [] ->
  WEATHER_PHENOMENA g !! wx_string = None ->
  re_match_modifiers modifier_alternatives wx_string = Some (group1, rest) ->
  default (u "") (MODIFIERS g !! default (u "") group1) = prefix_cn ->
  while_remaining (length rest) rest [] g = (Return tokens, g) ->
  parse_weather wx_string g
  = (Return (if nonempty prefix_cn && nonempty tokens
             then prefix_cn ++ concat tokens
             else if nonempty tokens then concat tokens else wx_string), g).
Proof.
  intros Hne Hnokey Hregex Hprefix Htokens. unfold parse_weather.
  destruct wx_string as [|c wx] eqn:Hwx; [congruence|]. rewrite <- Hwx in *.
  replace (nonempty wx_string) with true by (subst; reflexivity).
  cbn [negb]. unfold bind at 1. rewrite lookup_in_run, Hnokey, Hregex.
  unfold bind at 1. rewrite lookup_in_run, Hprefix.
  rewrite (bind_return _ _ _ _ _ Htokens).
  destruct (nonempty prefix_cn && nonempty tokens); [reflexivity|].
  destruct (nonempty tokens); reflexivity.
Qed.

Lemma no_newline_app s t :
  no_newline (s ++ t) = no_newline s && no_newline t.
Proof. unfold no_newline. apply forallb_app. Qed.

Lemma codes_are_clean codes cns :
  Forall2 (fun code cn => WEATHER_PHENOMENA module_globals !! code = Some cn)
          codes cns ->
  no_newline (concat codes) = true.
Proof.
  induction 1 as [|code cn codes cns Hkey _ IH]; [reflexivity|].
  cbn [concat]. rewrite no_newline_app, IH.
  destruct (phenomenon_key_facts code cn Hkey) as [-> _]. reflexivity.
Qed.

Lemma modifier_of_no_prefix :
  default (u "") (MODIFIERS module_globals !! default (u "") None) = [].
Proof. vm_compute. reflexivity. Qed.

(** X9: a string made of one or more phenomenon codes, with no prefix, is
    translated code by code: the result is the concatenation of the table
    translations in the order of the codes. *)
Theorem parse_weather_concatenated_codes codes cns :
  codes <> [] ->
  Forall2 (fun code cn => WEATHER_PHENOMENA module_globals !! code = Some cn)
          codes cns ->
  parse_weather (concat codes) module_globals
  = (Return (concat cns), module_globals).
Proof.
  intros Hne Hcodes.
  pose proof (codes_are_clean codes cns Hcodes) as Hclean.
  pose proof (tokens_of_codes codes cns Hcodes (length (concat codes)) []
                (le_n _)) as Htokens.
  destruct Hcodes as [|code cn codes cns Hkey Hrest]; [congruence|].
  pose proof (phenomenon_keys_have_two_characters code cn Hkey) as Hlen.
  destruct Hrest as [|code' cn' codes cns Hkey' Hrest].
  - cbn [concat]. rewrite !app_nil_r.
    apply parse_weather_exact_key; [|exact Hkey].
    intros ->. discriminate Hlen.
  - pose proof (phenomenon_keys_have_two_characters code' cn' Hkey') as Hlen'.
    assert (Hregex : re_match_modifiers modifier_alternatives
                       (concat (code :: code' :: codes))
                     = Some (None, concat (code :: code' :: codes))).
    { cbn [concat]. rewrite (re_match_no_prefix code cn _ Hkey).
      cbn [concat] in Hclean. rewrite (dot_star_eol_clean _ Hclean).
      reflexivity. }
    assert (Hnonempty : concat (code :: code' :: codes) <> []).
    { cbn [concat]. destruct code; [discriminate Hlen|].
      cbn [app]. intros E. discriminate E. }
    assert (Hnokey : WEATHER_PHENOMENA module_globals
                       !! concat (code :: code' :: codes) = None).
    { apply not_a_phenomenon_key. cbn [concat]. rewrite !length_app. lia. }
    rewrite (parse_weather_by_tokens module_globals _ None _ [] _
               Hnonempty Hnokey Hregex modifier_of_no_prefix Htokens).
    reflexivity.
Qed.

Lemma parse_weather_concatenated_codes_witness :
  parse_weather (concat [u "RA"; u "SN"]) module_globals
  = (Return (concat [u "雨"; u "雪"]), module_globals).
Proof.
  apply (parse_weather_concatenated_codes [u "RA"; u "SN"] [u "雨"; u "雪"]).
  - discriminate.
  - repeat constructor.
Defined.

Lemma modifier_facts p :
  p ∈ modifier_alternatives ->
  exists prefix_cn,
    MODIFIERS module_globals !! p = Some prefix_cn
    /\ prefix_cn <> [] /\ p <> []
    /\ default (u "") (MODIFIERS module_globals !! default (u "") (Some p))
       = prefix_cn.
Proof.
  intros Hp. unfold modifier_alternatives in Hp.
  repeat (apply elem_of_cons in Hp; destruct Hp as [->|Hp];
          [eexists; repeat split; vm_compute; congruence|]).
  apply elem_of_nil in Hp. contradiction.
Qed.

(** X10: one prefix of the pattern (a sign or a descriptor) followed by one
    or more phenomenon codes gives the translation of the prefix from
    MODIFIERS followed by the translations of the codes, in order and with
    no separator. *)
Theorem parse_weather_prefixed_codes p codes cns :
  p ∈ modifier_alternatives ->
  codes <> [] ->
  Forall2 (fun code cn => WEATHER_PHENOMENA module_globals !! code = Some cn)
          codes cns ->
  exists prefix_cn,
    MODIFIERS module_globals !! p = Some prefix_cn
    /\ parse_weather (p ++ concat codes) module_globals
       = (Return (prefix_cn ++ concat cns), module_globals).
Proof.
  intros Hp Hne Hcodes.
  destruct (modifier_facts p Hp) as (prefix_cn & Hmod & Hcn & Hpne & Hprefix).
  exists prefix_cn. split; [exact Hmod|].
  pose proof (codes_are_clean codes cns Hcodes) as Hclean.
  pose proof (tokens_of_codes codes cns Hcodes (length (concat codes)) []
                (le_n _)) as Htokens.
  pose proof (re_match_picks_prefix p (concat codes) Hp Hclean) as Hregex.
  assert (Hnonempty : p ++ concat codes <> []).
  { destruct p; [congruence|]. cbn [app]. intros E. discriminate E. }
  assert (Hnokey : WEATHER_PHENOMENA module_globals !! (p ++ concat codes) = None).
  { apply not_a_phenomenon_key. rewrite length_app.
    destruct Hcodes as [|code cn codes cns Hkey _]; [congruence|].
    pose proof (phenomenon_keys_have_two_characters code cn Hkey) as Hlen.
    cbn [concat]. rewrite length_app.
    destruct p; [congruence|]. cbn [length]. lia. }
  rewrite (parse_weather_by_tokens module_globals _ (Some p) _ prefix_cn _
             Hnonempty Hnokey Hregex Hprefix Htokens).
  destruct prefix_cn; [congruence|].
  destruct Hcodes; [congruence|]. reflexivity.
Qed.

Lemma parse_weather_prefixed_codes_witness :
  exists prefix_cn,
    MODIFIERS module_globals !! u "-" = Some prefix_cn
    /\ parse_weather (u "-" ++ concat [u "RA"; u "SN"]) module_globals
       = (Return (prefix_cn ++ concat [u "雨"; u "雪"]), module_globals).
Proof.
  apply (parse_weather_prefixed_codes (u "-") [u "RA"; u "SN"] [u "雨"; u "雪"]).
  - unfold modifier_alternatives. repeat constructor.
  - discriminate.
  - repeat constructor.
Defined.

(** The tokens of the loop are never empty strings, and the loop adds at
    least one token when there is something left to read. *)
Lemma tokens_grow fuel :
  forall remaining phenomena_cn tokens g',
    while_remaining fuel remaining phenomena_cn module_globals
    = (Return tokens, g') ->
    Forall (fun t => t <> []) phenomena_cn ->
    Forall (fun t => t <> []) tokens
    /\ (remaining <> [] -> tokens <> [])
    /\ (phenomena_cn <> [] -> tokens <> []).
Proof.
  induction fuel as [|fuel IH]; intros remaining phenomena_cn tokens g' Hrun Hacc.
  - destruct remaining; [|discriminate Hrun].
    apply ret_inv in Hrun as [<- _]. auto.
  - destruct remaining as [|c tl] eqn:Hrem.
    { apply ret_inv in Hrun as [<- _]. auto. }
    rewrite <- Hrem in *.
    assert (Hne : remaining <> []) by (subst; discriminate).
    assert (Hunfold : while_remaining (S fuel) remaining phenomena_cn
      = (next <- loop_body remaining phenomena_cn ;;
         match next with
         | Continue remaining' phenomena_cn' =>
             while_remaining fuel remaining' phenomena_cn'
         | Break phenomena_cn' => ret phenomena_cn'
         end)) by (subst; reflexivity).
    rewrite Hunfold in Hrun. clear Hunfold.
    destruct (loop_body_step module_globals remaining phenomena_cn Hne)
      as [(n & cn & _ & _ & Hkey & Hstep) | Hstep];
      rewrite (bind_return _ _ _ _ _ Hstep) in Hrun.
    + destruct (phenomenon_key_facts _ cn Hkey) as [_ Hcn].
      destruct (IH _ _ _ _ Hrun) as (Hall & _ & Hsome).
      { apply Forall_app. split; [exact Hacc|]. constructor; [exact Hcn|constructor]. }
      split; [exact Hall|].
      assert (Hgrown : phenomena_cn ++ [cn] <> []).
      { intros E. apply app_eq_nil in E as [_ E]. discriminate E. }
      auto.
    + apply ret_inv in Hrun as [<- _].
      split.
      * apply Forall_app. split; [exact Hacc|]. constructor; [exact Hne|constructor].
      * assert (Hgrown : phenomena_cn ++ [remaining] <> []).
        { intros E. apply app_eq_nil in E as [_ E]. discriminate E. }
        auto.
Qed.

Lemma concat_not_empty (tokens : list str) :
  tokens <> [] -> Forall (fun t => t <> []) tokens -> concat tokens <> [].
Proof.
  intros Hne Hall. destruct Hall as [|t ts Ht _]; [congruence|].
  cbn [concat]. intros E. apply app_eq_nil in E as [E _]. contradiction.
Qed.

(** X11: on the module's tables [parse_weather] returns the empty string
    for the empty string only: every non-empty input gives a non-empty
    result (so the weather line of a report is never dropped for a
    non-empty code). *)
Theorem parse_weather_keeps_something wx_string :
  wx_string <> [] ->
  exists cn,
    parse_weather wx_string module_globals = (Return cn, module_globals)
    /\ cn <> [].
Proof.
  intros Hne. unfold parse_weather.
  destruct wx_string as [|c wx] eqn:Hwx; [congruence|]. rewrite <- Hwx in *.
  replace (nonempty wx_string) with true by (subst; reflexivity).
  cbn [negb]. unfold bind at 1. rewrite lookup_in_run.
  destruct (WEATHER_PHENOMENA module_globals !! wx_string) as [cn|] eqn:Hkey.
  { exists cn. split; [reflexivity|].
    apply (phenomenon_key_facts _ _ Hkey). }
  destruct (re_match_modifiers modifier_alternatives wx_string)
    as [[group1 rest]|]; [|exists wx_string; split; [reflexivity|exact Hne]].
  unfold bind at 1. rewrite lookup_in_run.
  destruct (while_remaining_returns module_globals (length rest) rest []
              (le_n _)) as [tokens Htok].
  rewrite (bind_return _ _ _ _ _ Htok).
  destruct (tokens_grow _ _ _ _ _ Htok (List.Forall_nil _)) as (Hall & _ & _).
  destruct tokens as [|t ts].
  - rewrite andb_false_r. cbn [nonempty].
    exists wx_string. split; [reflexivity|exact Hne].
  - pose proof (concat_not_empty (t :: ts) ltac:(discriminate) Hall) as Hcat.
    cbn [nonempty]. rewrite andb_true_r.
    destruct (nonempty _); eexists; (split; [reflexivity|]); [|exact Hcat].
    intros E. apply app_eq_nil in E as [_ E]. contradiction.
Qed.

Lemma parse_weather_keeps_something_witness :
  exists cn,
    parse_weather (u "+TSRA") module_globals = (Return cn, module_globals)
    /\ cn <> [].
Proof.
  apply (parse_weather_keeps_something (u "+TSRA")). discriminate.
Defined.

(** X12: a prefix code standing alone (a sign or a descriptor with no
    phenomenon after it, such as "TS" or "VC") is returned as it is, not
    translated. *)
Theorem parse_weather_bare_prefix p :
  p ∈ modifier_alternatives ->
  parse_weather p module_globals = (Return p, module_globals).
Proof.
  intros Hp. unfold modifier_alternatives in Hp.
  repeat (apply elem_of_cons in Hp; destruct Hp as [->|Hp];
          [vm_compute; reflexivity|]).
  apply elem_of_nil in Hp. contradiction.
Qed.

Lemma parse_weather_bare_prefix_witness :
  parse_weather (u "TS") module_globals = (Return (u "TS"), module_globals).
Proof.
  apply (parse_weather_bare_prefix (u "TS")).
  unfold modifier_alternatives. repeat constructor.
Defined.

Lemma re_match_without_prefix alts wx_string :
  Forall (fun q => starts_with q wx_string = false) alts ->
  re_match_modifiers alts wx_string
  = match dot_star_eol wx_string with
    | Some rest => Some (None, rest)
    | None => None
    end.
Proof.
  induction 1 as [|q alts Hq _ IH]; [reflexivity|].
  rewrite (re_match_skip q alts wx_string Hq). exact IH.
Qed.

(** The loop on a remainder that matches at neither length. *)
Lemma tokens_of_unknown g remaining :
  remaining <> [] ->
  WEATHER_PHENOMENA g !! take 3 remaining = None ->
  WEATHER_PHENOMENA g !! take 2 remaining = None ->
  while_remaining (length remaining) remaining [] g = (Return [remaining], g).
Proof.
  intros Hne H3 H2.
  destruct remaining as [|c tl] eqn:Hrem; [congruence|]. rewrite <- Hrem in *.
  assert (Hunfold : while_remaining (length remaining) remaining []
    = (next <- loop_body remaining [] ;;
       match next with
       | Continue remaining' phenomena_cn' =>
           while_remaining (length tl) remaining' phenomena_cn'
       | Break phenomena_cn' => ret phenomena_cn'
       end)) by (subst; reflexivity).
  rewrite Hunfold.
  rewrite (bind_return _ _ _ _ _ (loop_body_no_match g _ [] Hne H3 H2)).
  reflexivity.
Qed.

(** X13: a non-empty string of one line that begins with no prefix of the
    pattern and whose first three and first two characters are no phenomenon
    codes is returned unchanged, whatever follows those characters. *)
Theorem parse_weather_unknown_code wx_string :
  wx_string <> [] ->
  no_newline wx_string = true ->
  Forall (fun q => starts_with q wx_string = false) modifier_alternatives ->
  WEATHER_PHENOMENA module_globals !! take 3 wx_string = None ->
  WEATHER_PHENOMENA module_globals !! take 2 wx_string = None ->
  parse_weather wx_string module_globals = (Return wx_string, module_globals).
Proof.
  intros Hne Hclean Hprefix H3 H2.
  assert (Hnokey : WEATHER_PHENOMENA module_globals !! wx_string = None).
  { destruct (WEATHER_PHENOMENA module_globals !! wx_string) as [cn|] eqn:Hkey;
      [|reflexivity].
    pose proof (phenomenon_keys_have_two_characters _ _ Hkey) as Hlen.
    rewrite take_ge in H2 by lia. congruence. }
  assert (Hregex : re_match_modifiers modifier_alternatives wx_string
                   = Some (None, wx_string)).
  { rewrite (re_match_without_prefix _ _ Hprefix).
    rewrite (dot_star_eol_clean _ Hclean). reflexivity. }
  rewrite (parse_weather_by_tokens module_globals wx_string None wx_string [] _
             Hne Hnokey Hregex modifier_of_no_prefix
             (tokens_of_unknown module_globals wx_string Hne H3 H2)).
  cbn [nonempty andb concat]. rewrite app_nil_r. reflexivity.
Qed.

Lemma parse_weather_unknown_code_witness :
  parse_weather (u "NOSIG") module_globals = (Return (u "NOSIG"), module_globals).
Proof.
  apply (parse_weather_unknown_code (u "NOSIG")).
  - discriminate.
  - reflexivity.
  - unfold modifier_alternatives. repeat constructor.
  - vm_compute. reflexivity.
  - vm_compute. reflexivity.
Defined.

(** ** More on [parse_clouds] and [parse_metar] *)

Lemma parse_clouds_list L g layers :
  layers <> [] ->
  parse_clouds L (VList layers) g
  = (cloud_info <- mapM (cloud_layer L) layers ;;
     ret (join (u " / ") cloud_info)) g.
Proof. intros Hne. destruct layers; [congruence|]. reflexivity. Qed.

Lemma mapM_length {A B} (f : A -> M B) l g ys g' :
  mapM f l g = (Return ys, g') -> length ys = length l.
Proof.
  revert g ys g'. induction l as [|x tl IH]; intros g ys g' H; cbn [mapM] in H.
  - apply ret_inv in H as [<- _]. reflexivity.
  - apply bind_returns_inv in H as (y & g1 & _ & H).
    apply bind_returns_inv in H as (ys' & g2 & Htl & H).
    apply ret_inv in H as [<- _]. cbn [length]. f_equal. exact (IH _ _ _ Htl).
Qed.

(** What [mapM] does with the bodies of a loop that leave the store alone:
    it returns the results in order when every body returns, and raises the
    exception of the first body that raises. *)
Lemma mapM_returns {A B} (f : A -> M B) l g ys :
  Forall2 (fun x y => f x g = (Return y, g)) l ys ->
  mapM f l g = (Return ys, g).
Proof.
  induction 1 as [|x y l ys Hx _ IH]; [reflexivity|].
  cbn [mapM]. rewrite (bind_return _ _ _ _ _ Hx), (bind_return _ _ _ _ _ IH).
  reflexivity.
Qed.

Lemma mapM_raises {A B} (f : A -> M B) before x after g ys e :
  Forall2 (fun x y => f x g = (Return y, g)) before ys ->
  f x g = (Raise e, g) ->
  mapM f (before ++ x :: after) g = (Raise e, g).
Proof.
  intros Hbefore Hx. induction Hbefore as [|x' y l ys' Hx' _ IH].
  - cbn [app mapM]. unfold bind at 1. rewrite Hx. reflexivity.
  - cbn [app mapM]. rewrite (bind_return _ _ _ _ _ Hx').
    unfold bind at 1. rewrite IH. reflexivity.
Qed.

Lemma mapM_cases {A B} (f : A -> M B) l g :
  (forall x, settles (f x)) ->
  (exists ys, Forall2 (fun x y => f x g = (Return y, g)) l ys)
  \/ (exists before x after ys e,
         l = before ++ x :: after
         /\ Forall2 (fun x y => f x g = (Return y, g)) before ys
         /\ f x g = (Raise e, g)).
Proof.
  intros Hf. induction l as [|x tl IH].
  - left. exists []. constructor.
  - destruct (Hf x g) as [[y Hx]|[e Hx]].
    + destruct IH as [[ys Hys]|(before & x' & after & ys & e & -> & Hys & Hx')].
      * left. exists (y :: ys). constructor; assumption.
      * right. exists (x :: before), x', after, (y :: ys), e.
        split; [reflexivity|]. split; [constructor; assumption|assumption].
    + right. exists [], x, tl, [], e.
      split; [reflexivity|]. split; [constructor|assumption].
Qed.

(** X14: [parse_clouds] on a list of one or more layers.  When every layer
    gives a text, the result is these texts in the order of the layers,
    joined by " / ".  When a layer raises and all the layers before it gave
    a text, that exception leaves [parse_clouds], whatever the layers after
    it are.  One of the two is always the case. *)
Theorem parse_clouds_joins_layers L g layers :
  layers <> [] ->
  (forall texts,
      Forall2 (fun c text => cloud_layer L c g = (Return text, g)) layers texts ->
      parse_clouds L (VList layers) g = (Return (join (u " / ") texts), g))
  /\ (forall before c after texts e,
         layers = before ++ c :: after ->
         Forall2 (fun c text => cloud_layer L c g = (Return text, g))
                 before texts ->
         cloud_layer L c g = (Raise e, g) ->
         parse_clouds L (VList layers) g = (Raise e, g))
  /\ ((exists texts,
          Forall2 (fun c text => cloud_layer L c g = (Return text, g))
                  layers texts)
      \/ (exists before c after texts e,
             layers = before ++ c :: after
             /\ Forall2 (fun c text => cloud_layer L c g = (Return text, g))
                        before texts
             /\ cloud_layer L c g = (Raise e, g))).
Proof.
  intros Hne. rewrite (parse_clouds_list L g layers Hne).
  split; [|split].
  - intros texts Hall.
    rewrite (bind_return _ _ _ _ _ (mapM_returns _ _ _ _ Hall)). reflexivity.
  - intros before c after texts e -> Hbefore Hc.
    unfold bind at 1. rewrite (mapM_raises _ _ _ _ _ _ _ Hbefore Hc).
    reflexivity.
  - apply mapM_cases. intros c. apply settles_cloud_layer.
Qed.

Lemma parse_clouds_joins_layers_witness :
  parse_clouds sample_runtime
    (VList [VDict [(u "cover", VStr (u "FEW"))]; VDict [(u "cover", VStr (u "OVC"))]])
    module_globals
  = (Return (join (u " / ") [u "少云(1-2/8)"; u "阴天(8/8)"]), module_globals).
Proof.
  refine (proj1 (parse_clouds_joins_layers sample_runtime module_globals
            [VDict [(u "cover", VStr (u "FEW"))];
             VDict [(u "cover", VStr (u "OVC"))]] _)
            [u "少云(1-2/8)"; u "阴天(8/8)"] _).
  - discriminate.
  - apply List.Forall2_cons; [vm_compute; reflexivity|].
    apply List.Forall2_cons; [vm_compute; reflexivity|].
    apply List.Forall2_nil.
Defined.

(** X15: a record that is not a JSON object (a list, a text, a number,
    null) makes [parse_metar] return the failure message with the text of
    the AttributeError of its first [get], whatever the tables hold; the
    text names the type of the record, so a list and a text give different
    messages. *)
Theorem parse_metar_rejects_non_object L metar_data g :
  (forall items, metar_data <> VDict items) ->
  parse_metar L metar_data g
  = (Return (u "解析失败: " ++ u "'" ++ type_name metar_data
             ++ u "' object has no attribute 'get'"), g).
Proof.
  intros Hother. destruct metar_data; try reflexivity.
  exfalso. eapply Hother. reflexivity.
Qed.

Lemma parse_metar_rejects_non_object_witness :
  parse_metar sample_runtime (VList []) module_globals
  = (Return (u "解析失败: " ++ u "'" ++ u "list"
             ++ u "' object has no attribute 'get'"), module_globals).
Proof.
  exact (parse_metar_rejects_non_object sample_runtime (VList []) module_globals
           (fun items H => eq_ind (VList []) (fun v => match v with VList _ => True | _ => False end) I _ H)).
Defined.

(** X16: whenever [parse_metar] assembles a report, its lines stand in the
    fixed order raw text, station, time, wind, visibility, weather, clouds,
    temperature, dew point, pressure, flight category, each kind at most
    once; the station, time, wind, visibility and cloud lines are always
    there; so a report has between five and eleven lines. *)
Theorem report_lines_order L g items lines g' :
  metar_lines L (VDict items) g = (Return lines, g') ->
  is_subsequence (map (hd 0) lines) line_marks = true
  /\ forallb (fun m => existsb (N.eqb m) (map (hd 0) lines)) unconditional_marks
     = true
  /\ (5 <= length lines <= 11)%nat.
Proof.
  intros H. unfold metar_lines in H. invert_binds H.
  cbv zeta in H.
  match type of H with
  | (match ?c with _ => _ end) _ = _ => destruct c as [[cat_name cat_emoji]|]
  end;
  apply ret_inv in H; destruct H as [<- _];
  repeat match goal with
         | |- context [if ?b then _ else _] => destruct b
         end;
  repeat split; vm_compute; try reflexivity; lia.
Qed.

Lemma report_lines_order_witness :
  is_subsequence
    (map (hd 0)
       [ u "📍 " ++ u "Shanghai" ++ u " (" ++ u "ZSSS" ++ u ")";
         u "⏰ 观测时间: " ++ u "N/A";
         u "💨 风向风速: " ++ u "无风";
         u "👁️ 能见度: " ++ u "N/A";
         u "☁️ 云量: " ++ u "无云" ]) line_marks = true.
Proof.
  refine (proj1 (report_lines_order sample_runtime module_globals
            [(u "icaoId", VStr (u "ZSSS")); (u "name", VStr (u "Shanghai"))]
            [ u "📍 " ++ u "Shanghai" ++ u " (" ++ u "ZSSS" ++ u ")";
              u "⏰ 观测时间: " ++ u "N/A";
              u "💨 风向风速: " ++ u "无风";
              u "👁️ 能见度: " ++ u "N/A";
              u "☁️ 云量: " ++ u "无云" ] module_globals _)).
  vm_compute. reflexivity.
Defined.

Lemma settles_same_store {A} (m : M A) g a g' :
  settles m -> m g = (Return a, g') -> g' = g.
Proof.
  intros Hm Hrun. destruct (Hm g) as [[a' H]|[e H]]; rewrite H in Hrun;
    [injection Hrun as _ <-; reflexivity|discriminate].
Qed.

(** X17: the temperature and dew-point lines are shown for every value
    other than the text "N/A", zero included: the test is on the sentinel,
    not on the truth of the value (unlike the gust clause). *)
Theorem temperature_lines_show_zero L g items lines g' :
  metar_lines L (VDict items) g = (Return lines, g') ->
  (forall temp,
      assoc (u "temp") items = Some temp -> eq_str temp (u "N/A") = false ->
      In (u "🌡️ 温度: " ++ py_str L temp ++ u "°C") lines)
  /\ (forall dewp,
         assoc (u "dewp") items = Some dewp -> eq_str dewp (u "N/A") = false ->
         In (u "💧 露点: " ++ py_str L dewp ++ u "°C") lines).
Proof.
  intros H. unfold metar_lines in H. invert_binds H.
  cbv zeta in H.
  match type of H with
  | (match ?c with _ => _ end) _ = _ => destruct c as [[cat_name cat_emoji]|]
  end;
  apply ret_inv in H; destruct H as [<- _];
  (split; [intros temp Hfield Hshown|intros dewp Hfield Hshown]);
  rewrite Hfield; cbn [from_option id]; rewrite Hshown; cbn [negb];
  try apply in_app_left.
  - do 2 apply in_grow. apply in_or_app. right. apply in_eq.
  - apply in_grow. apply in_or_app. right. apply in_eq.
  - do 2 apply in_grow. apply in_or_app. right. apply in_eq.
  - apply in_grow. apply in_or_app. right. apply in_eq.
Qed.

Lemma temperature_lines_show_zero_witness :
  In (u "🌡️ 温度: " ++ py_str sample_runtime (VInt 0) ++ u "°C")
     [ u "📍 " ++ u "N/A" ++ u " (" ++ u "N/A" ++ u ")";
       u "⏰ 观测时间: " ++ u "N/A";
       u "💨 风向风速: " ++ u "无风";
       u "👁️ 能见度: " ++ u "N/A";
       u "☁️ 云量: " ++ u "无云";
       u "🌡️ 温度: " ++ py_str sample_runtime (VInt 0) ++ u "°C" ].
Proof.
  refine (proj1 (temperature_lines_show_zero sample_runtime module_globals
            [(u "temp", VInt 0)]
            [ u "📍 " ++ u "N/A" ++ u " (" ++ u "N/A" ++ u ")";
              u "⏰ 观测时间: " ++ u "N/A";
              u "💨 风向风速: " ++ u "无风";
              u "👁️ 能见度: " ++ u "N/A";
              u "☁️ 云量: " ++ u "无云";
              u "🌡️ 温度: " ++ py_str sample_runtime (VInt 0) ++ u "°C" ]
            module_globals _) (VInt 0) _ _).
  - vm_compute. reflexivity.
  - reflexivity.
  - reflexivity.
Defined.

(** X18.  The flight-category line closes the report exactly when the
    record's [fltCat] is a key of [FLT_CAT]: for a known, non-empty code the
    last line is the category line built from the table entry, and for a code
    the table does not hold no line of the report starts with the category
    mark. *)
Theorem flight_category_line L g items lines code :
  metar_lines L (VDict items) g = (Return lines, g) ->
  assoc (u "fltCat") items = Some (VStr code) ->
  (forall cat_name cat_emoji,
      code <> [] -> FLT_CAT g !! code = Some (cat_name, cat_emoji) ->
      last lines = Some (u "✈️ 运行标准: " ++ cat_emoji ++ u " " ++ cat_name))
  /\ (FLT_CAT g !! code = None ->
      Forall (fun line => hd 0 line <> hd 0 (u "✈️ 运行标准: ")) lines).
Proof.
  intros H Hfield. unfold metar_lines in H. invert_binds H.
  cbv zeta in H.
  pose proof (settles_same_store _ _ _ _ (settles_report_time _ _) Ha) as ->.
  pose proof (settles_same_store _ _ _ _ (settles_weather_text _) Ha0) as ->.
  pose proof (settles_same_store _ _ _ _ (settles_parse_clouds _ _) Ha1) as ->.
  pose proof (settles_same_store _ _ _ _ (settles_altim_text _ _ _) Ha2) as ->.
  rewrite Hfield in Ha3. cbn [from_option id truthy table_lookup] in Ha3.
  assert (Hcat : a3 = if nonempty code then FLT_CAT g !! code else None).
  { destruct (nonempty code); [rewrite lookup_in_run in Ha3|];
      apply ret_inv in Ha3 as [<- _] || (injection Ha3 as <- _); reflexivity. }
  clear Ha3. split.
  - intros cat_name cat_emoji Hne Hknown.
    destruct code; [congruence|]. cbn [nonempty] in Hcat.
    rewrite Hknown in Hcat. subst a3.
    apply ret_inv in H as [<- _]. apply last_snoc.
  - intros Hunknown.
    assert (a3 = None) as -> by (subst a3; destruct (nonempty code); auto).
    apply ret_inv in H as [<- _].
    repeat match goal with
           | |- context [if ?b then _ else _] => destruct b
           end;
      repeat constructor; vm_compute; discriminate.
Qed.

Lemma flight_category_line_witness :
  last [ u "📍 " ++ u "N/A" ++ u " (" ++ u "N/A" ++ u ")";
         u "⏰ 观测时间: " ++ u "N/A";
         u "💨 风向风速: " ++ u "无风";
         u "👁️ 能见度: " ++ u "N/A";
         u "☁️ 云量: " ++ u "无云";
         u "✈️ 运行标准: " ++ u "🟢" ++ u " " ++ u "VFR 目视" ]
  = Some (u "✈️ 运行标准: " ++ u "🟢" ++ u " " ++ u "VFR 目视").
Proof.
  refine (proj1 (flight_category_line sample_runtime module_globals
            [(u "fltCat", VStr (u "VFR"))]
            [ u "📍 " ++ u "N/A" ++ u " (" ++ u "N/A" ++ u ")";
              u "⏰ 观测时间: " ++ u "N/A";
              u "💨 风向风速: " ++ u "无风";
              u "👁️ 能见度: " ++ u "N/A";
              u "☁️ 云量: " ++ u "无云";
              u "✈️ 运行标准: " ++ u "🟢" ++ u " " ++ u "VFR 目视" ]
            (u "VFR") _ _) (u "VFR 目视") (u "🟢") _ _).
  - vm_compute. reflexivity.
  - reflexivity.
  - vm_compute. discriminate.
  - vm_compute. reflexivity.
Defined.

(** X19.  The wind line without a usable heading: a direction "VRB" gives
    the variable-direction text whatever the speed and the gust are; a record
    with no direction reads as calm; and so does a record with a direction but
    no speed, its gust being dropped with it. *)
Theorem wind_line_without_heading L g items lines g' :
  metar_lines L (VDict items) g = (Return lines, g') ->
  (assoc (u "wdir") items = Some (VStr (u "VRB")) ->
   In (u "💨 风向风速: " ++ u "风向不定") lines)
  /\ (assoc (u "wdir") items = None ->
      In (u "💨 风向风速: " ++ u "无风") lines)
  /\ (forall windDir,
         assoc (u "wdir") items = Some windDir ->
         eq_str windDir (u "VRB") = false ->
         assoc (u "wspd") items = None ->
         In (u "💨 风向风速: " ++ u "无风") lines).
Proof.
  intros Hrun. pose proof (wind_line_in_report L g items lines g' Hrun) as Hin.
  assert (Hna : eq_str (VStr (u "N/A")) (u "N/A") = true)
    by (vm_compute; reflexivity).
  assert (Hvrb : eq_str (VStr (u "VRB")) (u "VRB") = true)
    by (vm_compute; reflexivity).
  assert (Hother : eq_str (VStr (u "N/A")) (u "VRB") = false)
    by (vm_compute; reflexivity).
  repeat split.
  - intros Hdir. rewrite Hdir in Hin. cbn [from_option id] in Hin.
    unfold wind_text in Hin. rewrite Hvrb in Hin. exact Hin.
  - intros Hdir. rewrite Hdir in Hin. cbn [from_option id] in Hin.
    unfold wind_text in Hin. rewrite Hother, Hna in Hin. exact Hin.
  - intros windDir Hdir Hfixed Hspeed. rewrite Hdir, Hspeed in Hin.
    cbn [from_option id] in Hin.
    unfold wind_text in Hin. rewrite Hfixed, Hna, orb_true_r in Hin. exact Hin.
Qed.

Lemma wind_line_without_heading_witness :
  In (u "💨 风向风速: " ++ u "无风")
     [ u "📍 " ++ u "N/A" ++ u " (" ++ u "N/A" ++ u ")";
       u "⏰ 观测时间: " ++ u "N/A";
       u "💨 风向风速: " ++ u "无风";
       u "👁️ 能见度: " ++ u "N/A";
       u "☁️ 云量: " ++ u "无云" ].
Proof.
  refine (proj2 (proj2 (wind_line_without_heading sample_runtime module_globals
            [(u "wdir", VInt 270); (u "wgst", VInt 25)]
            [ u "📍 " ++ u "N/A" ++ u " (" ++ u "N/A" ++ u ")";
              u "⏰ 观测时间: " ++ u "N/A";
              u "💨 风向风速: " ++ u "无风";
              u "👁️ 能见度: " ++ u "N/A";
              u "☁️ 云量: " ++ u "无云" ]
            module_globals _)) (VInt 270) _ _ _).
  - vm_compute. reflexivity.
  - reflexivity.
  - reflexivity.
  - reflexivity.
Defined.
